(** * tg_lldap_auth_bot: a shallow embedding of [src/lldap.ts] and [src/bot.ts]

    The directory client, the credential session, the privilege resolution
    and the registration command are transcribed as Rocq functions.  Remote
    parties (the LLDAP GraphQL endpoint, the Telegram Bot API) are parameters
    of the development; every outbound call is recorded in a trace. *)

From Stdlib Require Import ZArith List String Ascii Bool Lia Arith DecimalString.
Import ListNotations.
Open Scope string_scope.
Open Scope Z_scope.

Set Implicit Arguments.

(* ================================================================== *)
(** ** JavaScript values used by the code *)

(** What a [throw] (or a rejected promise) carries.  [CommandArgsError] is
    the subclass declared in bot.ts; [NonError] is any thrown value for
    which [instanceof Error] is false. *)
Inductive exn : Type :=
| JsError (message : string)
| CommandArgsError (message : string)
| NonError (payload : string).

Definition instanceof_Error (e : exn) : bool :=
  match e with
  | JsError _ | CommandArgsError _ => true
  | NonError _ => false
  end.

Definition instanceof_CommandArgsError (e : exn) : bool :=
  match e with
  | CommandArgsError _ => true
  | _ => false
  end.

Definition exn_message (e : exn) : string :=
  match e with
  | JsError m | CommandArgsError m => m
  | NonError _ => ""
  end.

(** Outcome of an awaited call: a value, or a thrown exception. *)
Inductive result (A : Type) : Type :=
| Ok (a : A)
| Throw (e : exn).
Arguments Ok {A} a.
Arguments Throw {A} e.


(* ------------------------------------------------------------------ *)
(** *** Strings

    JavaScript strings are modelled by [string].  Every character test in
    the code (the separator of [split], the two regular expressions, the
    marker of [includes]) is on ASCII characters only. *)

Module JsString.

(** [s.split(sep)] for a one-character separator: the pieces between
    consecutive separators, empty pieces kept; never an empty array. *)
Fixpoint split (sep : ascii) (s : string) : list string :=
  match s with
  | EmptyString => [EmptyString]
  | String c rest =>
      if Ascii.eqb c sep then EmptyString :: split sep rest
      else match split sep rest with
           | piece :: pieces => String c piece :: pieces
           | [] => [String c EmptyString]
           end
  end.

(** [hay.includes(needle)]. *)
Fixpoint includes (needle hay : string) : bool :=
  String.prefix needle hay
  || match hay with
     | EmptyString => false
     | String _ rest => includes needle rest
     end.

(** [n.toString()] for an integer-valued Number in the range of the safe
    integers (|n| <= 2^53 - 1), where every integer is a Number and
    JavaScript prints its plain decimal digits. *)
Definition of_number (n : Z) : string :=
  NilZero.string_of_int (Z.to_int n).

End JsString.

(* ------------------------------------------------------------------ *)
(** *** Regular expressions

    Both patterns of bot.ts have the shape [^ a1{m1,n1} a2{m2,n2} ... $]
    where every [ai] is a character class or a literal character.  A pattern
    is the list of its quantified atoms; matching is greedy with
    backtracking through a continuation, anchored at both ends. *)

Module Regex.

Record atom : Type := Atom {
  accepts : ascii -> bool;     (* the character class *)
  rmin : nat;                  (* least number of repetitions *)
  rmax : option nat            (* greatest number; None = unbounded *)
}.

Definition pattern : Type := list atom.

Definition may_repeat (mx : option nat) : bool :=
  match mx with
  | Some O => false
  | _ => true
  end.

Definition dec_max (mx : option nat) : option nat :=
  match mx with
  | Some n => Some (Nat.pred n)
  | None => None
  end.

(** Repetition of one class: take one more character when allowed (greedy),
    otherwise (or after the continuation failed) stop here when the
    minimum is reached. *)
Fixpoint repeat_class (cls : ascii -> bool) (mn : nat) (mx : option nat)
         (s : list ascii) (k : list ascii -> bool) : bool :=
  match s with
  | c :: rest =>
      (cls c && may_repeat mx
       && repeat_class cls (Nat.pred mn) (dec_max mx) rest k)
      || (Nat.eqb mn 0 && k s)
  | [] => Nat.eqb mn 0 && k []
  end.

Fixpoint match_from (p : pattern) (s : list ascii) : bool :=
  match p with
  | [] => match s with [] => true | _ :: _ => false end
  | a :: p' => repeat_class (accepts a) (rmin a) (rmax a) s (match_from p')
  end.

(** [s.match(/^...$/) !== null]. *)
Definition test (p : pattern) (s : string) : bool :=
  match_from p (list_ascii_of_string s).

Definition in_range (lo hi c : ascii) : bool :=
  (N.leb (N_of_ascii lo) (N_of_ascii c)
   && N.leb (N_of_ascii c) (N_of_ascii hi))%N.

Definition lower (c : ascii) : bool := in_range "a" "z" c.
Definition upper (c : ascii) : bool := in_range "A" "Z" c.
Definition digit (c : ascii) : bool := in_range "0" "9" c.
Definition one_of (chars : string) (c : ascii) : bool :=
  existsb (Ascii.eqb c) (list_ascii_of_string chars).

Definition class (cls : ascii -> bool) (mn : nat) (mx : option nat) : atom :=
  Atom cls mn mx.
Definition once (c : ascii) : atom := Atom (Ascii.eqb c) 1 (Some 1%nat).

End Regex.

(** [/^[a-zA-Z0-9_]{3,32}$/] *)
Definition username_class (c : ascii) : bool :=
  Regex.lower c || Regex.upper c || Regex.digit c || Regex.one_of "_" c.
Definition username_regex : Regex.pattern :=
  [Regex.class username_class 3 (Some 32%nat)].

(** [/^[a-zA-Z0-9._%+-]+@[a-zA-Z0-9.-]+\.[a-zA-Z]{2,}$/] *)
Definition email_local_class (c : ascii) : bool :=
  Regex.lower c || Regex.upper c || Regex.digit c || Regex.one_of "._%+-" c.
Definition email_domain_class (c : ascii) : bool :=
  Regex.lower c || Regex.upper c || Regex.digit c || Regex.one_of ".-" c.
Definition email_tld_class (c : ascii) : bool :=
  Regex.lower c || Regex.upper c.
Definition email_regex : Regex.pattern :=
  [ Regex.class email_local_class 1 None;
    Regex.once "@";
    Regex.class email_domain_class 1 None;
    Regex.once ".";
    Regex.class email_tld_class 2 None ].

(* ================================================================== *)
(** ** Configuration (the schema of config_utils.ts, as plain data) *)

Record AuthorizedChat : Type := {
  chat : Z;
  nickname : string;
  ldap_group_id : option Z          (* null when no group is configured *)
}.

(** The six membership states the Bot API reports. *)
Inductive member_status : Type :=
| Creator | Administrator | Member | Restricted | Left | Kicked.

Record MemberTypes : Type := {
  mt_creator : Z;
  mt_administrator : Z;
  mt_member : Z;
  mt_restricted : Z;
  mt_left : Z;
  mt_kicked : Z
}.

(** [member_types[status]] *)
Definition member_type (mt : MemberTypes) (s : member_status) : Z :=
  match s with
  | Creator => mt_creator mt
  | Administrator => mt_administrator mt
  | Member => mt_member mt
  | Restricted => mt_restricted mt
  | Left => mt_left mt
  | Kicked => mt_kicked mt
  end.

(** The schema's defaults: every state weighs -1. *)
Definition default_member_types : MemberTypes :=
  {| mt_creator := -1; mt_administrator := -1; mt_member := -1;
     mt_restricted := -1; mt_left := -1; mt_kicked := -1 |}.

Record TgConfig : Type := {
  log_chat_id : Z;
  authorized_chats : list AuthorizedChat;
  member_types : MemberTypes
}.

(* ================================================================== *)
(** ** lldap.ts: AuthManager *)

(** The [token] field.  It starts as [null]; [login] stores [data.token],
    which is whatever the response body holds under that key. *)
Inductive js_token : Type :=
| TokNull
| TokUndefined
| TokString (s : string).


Record AuthManager : Type := { token : js_token }.

Definition new_AuthManager : AuthManager := {| token := TokNull |}.

Definition getToken (am : AuthManager) : result js_token :=
  match token am with
  | TokNull => Throw (JsError "Not logged in")
  | t => Ok t
  end.



(* ================================================================== *)
(** ** lldap.ts: LldapClient *)

(** The four GraphQL documents, with their variables. *)
Inductive gql_request : Type :=
| GetUserFromId (user_id : string)
| GetUsersFromTelegramId (telegram_id : string)
| CreateUser (telegram_id user_id email : string)
| AddUserToGroup (user_id : string) (group_id : Z).

Definition is_mutation (r : gql_request) : bool :=
  match r with
  | CreateUser _ _ _ | AddUserToGroup _ _ => true
  | GetUserFromId _ | GetUsersFromTelegramId _ => false
  end.

Record Attribute : Type := { attr_name : string; attr_value : string }.

(** Payload of [user(userId:)]: [{id, email, attributes}]. *)
Record UserPayload : Type := {
  up_id : string;
  up_email : string;
  up_attributes : list Attribute
}.

(** Return value of [get_user_by_id]; [telegram_id] is optional. *)
Record DirectoryUser : Type := {
  du_id : string;
  du_telegram_id : option string;
  du_email : string
}.

(** The remote GraphQL endpoint: its state and what one round trip of
    each document yields.  The two [query] documents read the state, the two
    [mutation] documents may change it.  A [Throw] is what
    [gql_client.request] rejects with (network failure, HTTP error, GraphQL
    [errors] payload). *)
Record DirectoryBackend : Type := {
  db_state : Type;
  db_user : string -> db_state -> result UserPayload;
  db_users : string -> db_state -> result (list string);
  db_createUser : string -> string -> string -> db_state -> result string * db_state;
  db_addUserToGroup : string -> Z -> db_state -> result bool * db_state
}.

(** Everything the process sends out, in the order the calls are made. *)
Inductive event : Type :=
| GqlSent (req : gql_request)
| GetChatMember (chat_id user_id : Z)
| Reply (text : string) (html : bool)          (* ctx.reply(text, {parse_mode}) *)
| ReportMessage (text : string)                (* this.report_message(text) *)
| ReportError (err : exn).                     (* this.report_error(err) *)

(** The part of grammY's context the handlers read. *)
Inductive chat_type : Type := Private | Group | Supergroup | Channel.
Record TgChat : Type := { chat_id : Z; type : chat_type }.
Record TgUser : Type := { user_id : Z; first_name : string }.
Record Ctx : Type := {
  from : option TgUser;              (* ctx.from *)
  ctx_chat : option TgChat;          (* ctx.chat *)
  message_text : option string       (* ctx.message?.text *)
}.

(** The Bot API as the handlers see it: the [status] of
    [getChatMember(chat, user)], and whether a [ctx.reply] that is awaited
    (or returned) resolves. *)
Record TelegramApi : Type := {
  tg_getChatMember : Z -> Z -> result member_status;
  tg_sendMessage : string -> result unit
}.

(** Return value of [auth_status]. *)
Inductive AuthStatus : Type :=
| StatusPrivileged (level granting_chat : Z) (granting_chat_nickname : string)
| StatusNone.

Definition newline : string := String (ascii_of_nat 10) EmptyString.
Definition double_quote : string := String (ascii_of_nat 34) EmptyString.

Section Bot.

Variable B : DirectoryBackend.
Variable api : TelegramApi.
Variable config : TgConfig.
Variable login_url : string.              (* config.help_text.login_url *)
Variable escapeHtml : string -> string.   (* imported from deno.land/x/escape *)

Record world : Type := {
  w_auth : AuthManager;
  w_db : db_state B;
  w_trace : list event
}.

Definition M (A : Type) : Type := world -> result A * world.

Definition ret {A} (a : A) : M A := fun w => (Ok a, w).
Definition throw {A} (e : exn) : M A := fun w => (Throw e, w).
Definition bind {A C} (m : M A) (k : A -> M C) : M C :=
  fun w => match m w with
           | (Ok a, w') => k a w'
           | (Throw e, w') => (Throw e, w')
           end.
Definition try_catch {A} (m : M A) (handler : exn -> M A) : M A :=
  fun w => match m w with
           | (Ok a, w') => (Ok a, w')
           | (Throw e, w') => handler e w'
           end.

(** Appending to the record of outbound calls. *)
Definition add_trace (w : world) (evs : list event) : world :=
  {| w_auth := w_auth w; w_db := w_db w; w_trace := w_trace w ++ evs |}.

Definition emit (e : event) : M unit :=
  fun w => (Ok tt, add_trace w [e]).

(** [gql_client.request] of a query document: the [headers] callback
    runs [getToken] first, so nothing is sent without a token. *)
Definition request_query {A} (req : gql_request)
           (serve : db_state B -> result A) : M A :=
  fun w => match getToken (w_auth w) with
           | Throw e => (Throw e, w)
           | Ok _ => (serve (w_db w), add_trace w [GqlSent req])
           end.

Definition request_mutation {A} (req : gql_request)
           (serve : db_state B -> result A * db_state B) : M A :=
  fun w => match getToken (w_auth w) with
           | Throw e => (Throw e, w)
           | Ok _ => (fst (serve (w_db w)),
                      {| w_auth := w_auth w; w_db := snd (serve (w_db w));
                         w_trace := w_trace w ++ [GqlSent req] |})
           end.

Definition find_telegram_id (attrs : list Attribute) : option string :=
  option_map attr_value
    (find (fun attr => String.eqb (attr_name attr) "telegram_id") attrs).

(** The test of the [catch] clause of [get_user_by_id]. *)
Definition entity_not_found (err : exn) : bool :=
  instanceof_Error err && JsString.includes "Entity not found" (exn_message err).

Definition get_user_by_id (user_id : string) : M (option DirectoryUser) :=
  try_catch
    (bind (request_query (GetUserFromId user_id) (db_user B user_id))
          (fun res => ret (Some {| du_id := up_id res;
                                   du_telegram_id := find_telegram_id (up_attributes res);
                                   du_email := up_email res |})))
    (fun err =>
       if entity_not_found err then ret None else throw err).

Definition get_user_by_telegram_id (telegram_id : string) : M (option string) :=
  bind (request_query (GetUsersFromTelegramId telegram_id) (db_users B telegram_id))
       (fun users => match users with
                     | [] => ret None
                     | first :: _ => ret (Some first)
                     end).

(** Returns the [uuid] of the [createUser] payload. *)
Definition create_user (telegram_id user_id email : string) : M string :=
  request_mutation (CreateUser telegram_id user_id email)
                   (db_createUser B telegram_id user_id email).

Definition add_to_group_message (user_id : string) (group_id : Z) : string :=
  "Failed to add user " ++ user_id ++ " to group " ++ JsString.of_number group_id.

Definition add_to_group (user_id : string) (group_id : Z) : M unit :=
  bind (request_mutation (AddUserToGroup user_id group_id)
                         (db_addUserToGroup B user_id group_id))
       (fun ok => if negb ok
                  then throw (JsError (add_to_group_message user_id group_id))
                  else ret tt).

(* ---------------------------------------------------------------- *)
(** ** bot.ts: AuthBot *)

Definition getChatMember (chat_id user_id : Z) : M member_status :=
  fun w => (tg_getChatMember api chat_id user_id,
            add_trace w [GetChatMember chat_id user_id]).

(** [ctx.reply(...)] whose promise is dropped. *)
Definition reply (text : string) (html : bool) : M unit :=
  emit (Reply text html).

(** [await ctx.reply(...)] and [return ctx.reply(...)]. *)
Definition reply_awaited (text : string) (html : bool) : M unit :=
  bind (emit (Reply text html)) (fun _ w => (tg_sendMessage api text, w)).

Definition report_message (message : string) : M unit :=
  emit (ReportMessage message).
Definition report_error (err : exn) : M unit :=
  emit (ReportError err).

(** The [for ... of this.config.authorized_chats] loop of the private
    branch, on [(max_status, max_granted_chat, max_granted_chat_nickname)]. *)
Fixpoint max_over_chats (chats : list AuthorizedChat) (user : Z)
         (acc : Z * Z * string) : M (Z * Z * string) :=
  match chats with
  | [] => ret acc
  | c :: rest =>
      bind (getChatMember (chat c) user)
           (fun member_info =>
              let '(max_status, _, _) := acc in
              if member_type (member_types config) member_info >? max_status
              then max_over_chats rest user
                     (member_type (member_types config) member_info,
                      chat c, nickname c)
              else max_over_chats rest user acc)
  end.

Definition auth_status (ctx : Ctx) : M AuthStatus :=
  match from ctx with
  | None => ret StatusNone
  | Some user =>
    match ctx_chat ctx with
    | None => ret StatusNone
    | Some ch =>
      match type ch with
      | Group | Supergroup =>
          match find (fun x => chat x =? chat_id ch) (authorized_chats config) with
          | None => ret StatusNone
          | Some good_chat =>
              bind (getChatMember (chat_id ch) (user_id user))
                   (fun member_info =>
                      ret (StatusPrivileged
                             (member_type (member_types config) member_info)
                             (chat_id ch) (nickname good_chat)))
          end
      | Private =>
          bind (max_over_chats (authorized_chats config) (user_id user) (-1, -1, ""))
               (fun '(max_status, max_granted_chat, max_granted_chat_nickname) =>
                  if max_status >? 0
                  then ret (StatusPrivileged max_status max_granted_chat
                                             max_granted_chat_nickname)
                  else ret StatusNone)
      | Channel => ret StatusNone
      end
    end
  end.

Definition command_mystatus (ctx : Ctx) : M unit :=
  bind (auth_status ctx)
       (fun status =>
          match status with
          | StatusPrivileged level _ nick =>
              reply ("You are privileged with level " ++ JsString.of_number level
                     ++ " in chat <b>" ++ nick ++ "</b>") true
          | StatusNone => reply "You are not privileged" false
          end).

(** The [catch (err)] clause of [command_register]. *)
Definition register_catch (err : exn) : M unit :=
  bind (reply "LLDAP server had an error. Please contact the administrator." false)
       (fun _ => report_error err).

Definition already_exists_text (username : string) : string :=
  "User <b>" ++ username ++ "</b> already exists.".
Definition already_connected_text (existing_connect : string) : string :=
  "This telegram account is already connected to user <b>"
  ++ existing_connect ++ "</b>.".
Definition registered_text (username : string) : string :=
  "User <b>" ++ username ++ "</b> has been registered." ++ newline ++ newline
  ++ "Please go to " ++ login_url ++ " and use the " ++ double_quote
  ++ "Reset Password" ++ double_quote ++ " feature to set your password.".
Definition registered_report (username : string) (user : TgUser) (ch : TgChat) : string :=
  "User <b>" ++ username ++ "</b> has been registered by "
  ++ escapeHtml (first_name user) ++ "(" ++ JsString.of_number (user_id user)
  ++ ") in chat " ++ JsString.of_number (chat_id ch).
Definition added_to_group_text (username : string) (c : AuthorizedChat) : string :=
  "User <b>" ++ username ++ "</b> has been added to a group "
  ++ "because you are in chat <b>" ++ nickname c ++ "</b>".

(** The [try] block up to the [Promise.all]: [false] when it returned
    early, [true] when the user was created and the fan-out is next. *)
Definition register_lookups_and_create (user : TgUser) (ch : TgChat)
           (username email : string) : M bool :=
  bind (get_user_by_id username) (fun existing_user =>
  match existing_user with
  | Some _ => bind (reply (already_exists_text username) true) (fun _ => ret false)
  | None =>
    bind (get_user_by_telegram_id (JsString.of_number (user_id user)))
         (fun existing_connect =>
    match existing_connect with
    | Some connected =>
        bind (reply (already_connected_text connected) true) (fun _ => ret false)
    | None =>
      bind (create_user (JsString.of_number (user_id user)) username email) (fun _ =>
      bind (reply (registered_text username) true) (fun _ =>
      bind (report_message (registered_report username user ch)) (fun _ =>
      ret true)))
    end)
  end).

(* ---------------------------------------------------------------- *)
(** *** [Promise.all(this.config.authorized_chats.map(async (chat) => ...))]

    [map] calls the async arrow function once per configured chat, in
    order; each call runs up to its first [await], that is, it has issued
    its [getChatMember] when [map] moves on.  From then on every task is
    resumed whenever the promise it awaits settles.  [Promise.all] rejects
    with the first rejection and fulfils once all tasks have; neither
    stops a task.  The order in which awaited promises settle is the
    schedule: a list of task indices.  A mutation acts on the directory when
    it is sent; its outcome reaches the task when the task is resumed. *)

Inductive task : Type :=
| AwaitMember                       (* await getChatMember(chat.chat, user.id) *)
| AwaitAdd (outcome : result unit)  (* await add_to_group(username, ldap_group) *)
| AwaitReply                        (* await ctx.reply(...) *)
| Fulfilled
| Rejected (reason : exn).

Inductive all_state : Type :=
| AllPending
| AllFulfilled
| AllRejected (reason : exn).

Record fanout : Type := {
  fo_tasks : list (AuthorizedChat * task);
  fo_all : all_state;
  fo_world : world
}.

Definition is_fulfilled (ct : AuthorizedChat * task) : bool :=
  match snd ct with Fulfilled => true | _ => false end.

Definition is_settled (t : task) : bool :=
  match t with Fulfilled | Rejected _ => true | _ => false end.

Fixpoint update_nth {A} (n : nat) (x : A) (l : list A) : list A :=
  match l, n with
  | [], _ => []
  | _ :: tl, O => x :: tl
  | hd :: tl, S n' => hd :: update_nth n' x tl
  end.

(** One task from the await it is suspended at to its next await (or to
    its end). *)
Definition resume_task (user : TgUser) (username : string)
           (c : AuthorizedChat) (t : task) (w : world) : task * world :=
  match t with
  | AwaitMember =>
      match tg_getChatMember api (chat c) (user_id user) with
      | Throw e => (Rejected e, w)
      | Ok member_info =>
          if member_type (member_types config) member_info <=? 0
          then (Fulfilled, w)
          else match ldap_group_id c with
               | None => (Fulfilled, w)
               | Some ldap_group =>
                   (AwaitAdd (fst (add_to_group username ldap_group w)),
                    snd (add_to_group username ldap_group w))
               end
      end
  | AwaitAdd (Throw e) => (Rejected e, w)
  | AwaitAdd (Ok _) =>
      (AwaitReply, snd (reply (added_to_group_text username c) true w))
  | AwaitReply =>
      match tg_sendMessage api (added_to_group_text username c) with
      | Throw e => (Rejected e, w)
      | Ok _ => (Fulfilled, w)
      end
  | Fulfilled => (Fulfilled, w)
  | Rejected e => (Rejected e, w)
  end.

(** The [getChatMember] calls for the given chats, in order. *)
Definition queries (user : Z) (chats : list AuthorizedChat) : list event :=
  map (fun c => GetChatMember (chat c) user) chats.

(** The calls of the arrow function made by [map]. *)
Definition start_tasks (user : TgUser) (w : world) : fanout :=
  {| fo_tasks := map (fun c => (c, AwaitMember)) (authorized_chats config);
     fo_all := match authorized_chats config with
               | [] => AllFulfilled
               | _ :: _ => AllPending
               end;
     fo_world := add_trace w (queries (user_id user) (authorized_chats config)) |}.

(** The promise awaited by task [i] settles.  When this settles the
    [Promise.all] by a rejection, the [await] in [command_register] throws
    into its [catch] clause. *)
Definition resume (user : TgUser) (username : string) (f : fanout) (i : nat)
  : fanout :=
  match nth_error (fo_tasks f) i with
  | None => f
  | Some (c, t) =>
      if is_settled t then f
      else
        let t' := fst (resume_task user username c t (fo_world f)) in
        let w' := snd (resume_task user username c t (fo_world f)) in
        let tasks' := update_nth i (c, t') (fo_tasks f) in
        match fo_all f, t' with
        | AllPending, Rejected e =>
            {| fo_tasks := tasks'; fo_all := AllRejected e;
               fo_world := snd (register_catch e w') |}
        | AllPending, _ =>
            {| fo_tasks := tasks';
               fo_all := if forallb is_fulfilled tasks' then AllFulfilled
                         else AllPending;
               fo_world := w' |}
        | settled, _ =>
            {| fo_tasks := tasks'; fo_all := settled; fo_world := w' |}
        end
  end.

Definition run_tasks (user : TgUser) (username : string)
           (schedule : list nat) (f : fanout) : fanout :=
  fold_left (resume user username) schedule f.

(** [command_register].  [None]: the handler is still suspended in
    [await Promise.all(...)] when the schedule ends. *)
Definition command_register (ctx : Ctx) (schedule : list nat) (w : world)
  : option (result unit) * world :=
  match from ctx with
  | None =>
      let r := reply_awaited "You are not identified as a telegram user" false w in
      (Some (fst r), snd r)
  | Some user =>
    match ctx_chat ctx with
    | Some {| chat_id := cid; type := Private |} =>
      let ch := {| chat_id := cid; type := Private |} in
      match auth_status ctx w with
      | (Throw e, w1) => (Some (Throw e), w1)
      | (Ok StatusNone, w1) =>
          let r := reply_awaited "You are not privileged to use this command" false w1 in
          (Some (fst r), snd r)
      | (Ok (StatusPrivileged _ _ _), w1) =>
        match option_map (JsString.split " ") (message_text ctx) with
        | Some [_; username; email] =>
            if negb (Regex.test username_regex username)
            then (Some (Throw (CommandArgsError "Invalid username")), w1)
            else if negb (Regex.test email_regex email)
            then (Some (Throw (CommandArgsError "Invalid email")), w1)
            else
              match register_lookups_and_create user ch username email w1 with
              | (Throw err, w2) => (Some (Ok tt), snd (register_catch err w2))
              | (Ok false, w2) => (Some (Ok tt), w2)
              | (Ok true, w2) =>
                  let f := run_tasks user username schedule (start_tasks user w2) in
                  (match fo_all f with
                   | AllPending => None
                   | _ => Some (Ok tt)
                   end, fo_world f)
              end
        | _ => (Some (Throw (CommandArgsError "Invalid number of arguments")), w1)
        end
      end
    | _ => (Some (Throw (CommandArgsError "Use this command in a private chat.")), w)
    end
  end.

(** The wrapper installed by [this.bot.command(...)] around the register
    handler: a [CommandArgsError] becomes a usage reply, anything else is
    rethrown. *)
Definition register_help_text : string :=
  "<username> <email>" ++ newline ++ newline
  ++ "Example: /register alice alice@example.com" ++ newline ++ newline
  ++ "Note: The username should have 3 to 32 characters and only contain letters, numbers, and underscores."
  ++ newline
  ++ "The email should be a valid email address that you will need to reset your password.".

Definition dispatch_register (ctx : Ctx) (schedule : list nat) (w : world)
  : option (result unit) * world :=
  match command_register ctx schedule w with
  | (Some (Throw err), w') =>
      if instanceof_CommandArgsError err
      then (Some (Ok tt),
            snd (reply (exn_message err ++ newline ++ newline
                        ++ "Usage: /register " ++ register_help_text) false w'))
      else (Some (Throw err), w')
  | other => other
  end.

(* ---------------------------------------------------------------- *)
(** *** The group attachment as the specification words it

    "Domains are processed sequentially and a failure in one call aborts
    all remaining domains (propagates to the outer handler)". *)

Fixpoint attach_sequentially (user : TgUser) (username : string)
         (chats : list AuthorizedChat) : M unit :=
  match chats with
  | [] => ret tt
  | c :: rest =>
      bind (getChatMember (chat c) (user_id user)) (fun member_info =>
      if member_type (member_types config) member_info <=? 0
      then attach_sequentially user username rest
      else match ldap_group_id c with
           | None => attach_sequentially user username rest
           | Some ldap_group =>
               bind (add_to_group username ldap_group) (fun _ =>
               bind (reply_awaited (added_to_group_text username c) true) (fun _ =>
               attach_sequentially user username rest))
           end)
  end.

Definition attach_sequentially_spec (user : TgUser) (username : string) : M unit :=
  try_catch (attach_sequentially user username (authorized_chats config))
            register_catch.

End Bot.

(* ================================================================== *)
(** ** A reference directory *)

Module RefDirectory.

Record StoredUser : Type := {
  su_id : string;
  su_email : string;
  su_attributes : list Attribute;
  su_groups : list Z
}.

Record state : Type := {
  users : list StoredUser;       (* in creation order *)
  groups : list Z                (* the group ids that exist *)
}.

Definition has_id (uid : string) (u : StoredUser) : bool :=
  String.eqb (su_id u) uid.

Definition has_attribute (name value : string) (u : StoredUser) : bool :=
  existsb (fun a => String.eqb (attr_name a) name && String.eqb (attr_value a) value)
          (su_attributes u).

Definition payload (u : StoredUser) : UserPayload :=
  {| up_id := su_id u; up_email := su_email u; up_attributes := su_attributes u |}.

Definition not_found (what : string) : exn :=
  JsError ("Entity not found: " ++ what).

(** Modelled from the spec: the directory backend is a remote service, not
    part of the repository.  [user(userId:)] returns the stored
    [{id, email, attributes}] or fails with an error payload that carries
    the "Entity not found" marker. *)
Definition user (uid : string) (d : state) : result UserPayload :=
  match find (has_id uid) (users d) with
  | Some u => Ok (payload u)
  | None => Throw (not_found ("No such user: " ++ uid))
  end.

(** Modelled from the spec: [users(filters: {eq: {field, value}})] returns
    the ids of the users whose attribute has that value, oldest first. *)
Definition users_by_telegram_id (tid : string) (d : state) : result (list string) :=
  Ok (map su_id (filter (has_attribute "telegram_id" tid) (users d))).

(** Modelled from the spec: [createUser] is one atomic mutation that stores
    the user with the external-identity attribute, rejects an [id] that is
    already taken, and returns a backend-assigned opaque identifier. *)
Definition createUser (tid uid email : string) (d : state)
  : result string * state :=
  if existsb (has_id uid) (users d)
  then (Throw (JsError ("Database error: UNIQUE constraint failed: users.user_id")), d)
  else (Ok ("uuid-" ++ JsString.of_number (Z.of_nat (List.length (users d)))),
        {| users := users d
                    ++ [{| su_id := uid; su_email := email;
                           su_attributes := [{| attr_name := "telegram_id";
                                                attr_value := tid |}];
                           su_groups := [] |}];
           groups := groups d |}).

Definition join (uid : string) (gid : Z) (u : StoredUser) : StoredUser :=
  if has_id uid u
  then {| su_id := su_id u; su_email := su_email u;
          su_attributes := su_attributes u; su_groups := gid :: su_groups u |}
  else u.

(** Modelled from the spec: [addUserToGroup] attaches the membership and
    answers [{ok: true}]; an unknown user or group is an error payload. *)
Definition addUserToGroup (uid : string) (gid : Z) (d : state)
  : result bool * state :=
  if negb (existsb (has_id uid) (users d))
  then (Throw (not_found ("No such user: " ++ uid)), d)
  else if negb (existsb (Z.eqb gid) (groups d))
  then (Throw (not_found ("No such group: " ++ JsString.of_number gid)), d)
  else (Ok true, {| users := map (join uid gid) (users d); groups := groups d |}).

Definition backend : DirectoryBackend :=
  {| db_state := state;
     db_user := user;
     db_users := users_by_telegram_id;
     db_createUser := createUser;
     db_addUserToGroup := addUserToGroup |}.

End RefDirectory.


(* ------------------------------------------------------------------ *)
(** *** A small deployment used in the examples: two trust domains *)

Definition chat_A : AuthorizedChat :=
  {| chat := -1001; nickname := "A"; ldap_group_id := Some 10 |}.
Definition chat_B : AuthorizedChat :=
  {| chat := -1002; nickname := "B"; ldap_group_id := Some 20 |}.

Definition demo_config : TgConfig :=
  {| log_chat_id := -1000;
     authorized_chats := [chat_A; chat_B];
     member_types := {| mt_creator := -1; mt_administrator := 5; mt_member := 2;
                        mt_restricted := -1; mt_left := -1; mt_kicked := -1 |} |}.

(** The caller is "member" in A and "administrator" in B. *)
Definition demo_api : TelegramApi :=
  {| tg_getChatMember := fun chat_id _ =>
       if chat_id =? -1001 then Ok Member
       else if chat_id =? -1002 then Ok Administrator
       else Throw (JsError "Bad Request: chat not found");
     tg_sendMessage := fun _ => Ok tt |}.

(** The caller has left every chat. *)
Definition left_api : TelegramApi :=
  {| tg_getChatMember := fun _ _ => Ok Left;
     tg_sendMessage := fun _ => Ok tt |}.

Definition alice : TgUser := {| user_id := 42; first_name := "Alice" |}.

Definition private_ctx (text : string) : Ctx :=
  {| from := Some alice;
     ctx_chat := Some {| chat_id := 42; type := Private |};
     message_text := Some text |}.

Definition group_ctx (cid : Z) : Ctx :=
  {| from := Some alice;
     ctx_chat := Some {| chat_id := cid; type := Supergroup |};
     message_text := Some "/mystatus" |}.

(** A directory in which group 20 exists and group 10 does not. *)
Definition demo_directory : RefDirectory.state :=
  {| RefDirectory.users := []; RefDirectory.groups := [20] |}.

(** The same directory after a user "alice" was registered for Telegram
    id 7. *)
Definition alice_directory : RefDirectory.state :=
  snd (RefDirectory.createUser "7" "alice" "alice@example.com" demo_directory).

Definition logged_in : AuthManager := {| token := TokString "jwt" |}.

Definition demo_world : world RefDirectory.backend :=
  @Build_world RefDirectory.backend logged_in demo_directory [].

Definition alice_world : world RefDirectory.backend :=
  @Build_world RefDirectory.backend logged_in alice_directory [].

(** The worlds after the privilege check of a private command. *)
Definition queried_world : world RefDirectory.backend :=
  add_trace demo_world (queries 42 [chat_A; chat_B]).
Definition queried_alice_world : world RefDirectory.backend :=
  add_trace alice_world (queries 42 [chat_A; chat_B]).

(** The world after "bob" registered from Telegram id 42. *)
Definition bob_world : world RefDirectory.backend :=
  snd (create_user "42" "bob" "bob@example.com" demo_world).


Definition demo_states (chat_id : Z) : member_status :=
  if chat_id =? -1001 then Member else Administrator.


(** The group attachment for "alice": the code under the schedule in which
    the task of chat A runs to its end before the task of chat B is resumed,
    and the attachment as the specification words it. *)
Definition demo_fanout : fanout RefDirectory.backend :=
  run_tasks demo_api demo_config alice "alice" [0; 0; 1; 1; 1]%nat
            (start_tasks demo_config alice alice_world).
Definition demo_sequential : world RefDirectory.backend :=
  snd (attach_sequentially_spec demo_api demo_config alice "alice" alice_world).

Definition demo_register (text : string) (schedule : list nat)
  : option (result unit) * world RefDirectory.backend :=
  command_register demo_api demo_config "https://auth.example" (fun s => s)
                   (private_ctx text) schedule demo_world.

(** The patterns as the specification words them: 3 to 32 characters, each
    a letter, a digit or an underscore; and [local@domain.tld]. *)
Definition ascii_between (lo hi : N) (c : ascii) : Prop :=
  (lo <= N_of_ascii c <= hi)%N.
Definition is_letter (c : ascii) : Prop :=
  ascii_between 97 122 c \/ ascii_between 65 90 c.
Definition is_digit (c : ascii) : Prop := ascii_between 48 57 c.
Definition is_username_char (c : ascii) : Prop :=
  is_letter c \/ is_digit c \/ c = "_"%char.
Definition is_email_local_char (c : ascii) : Prop :=
  is_letter c \/ is_digit c
  \/ In c ["."; "_"; "%"; "+"; "-"]%char.
Definition is_email_domain_char (c : ascii) : Prop :=
  is_letter c \/ is_digit c \/ In c ["."; "-"]%char.

Definition username_pattern (s : string) : Prop :=
  (3 <= String.length s <= 32)%nat
  /\ Forall is_username_char (list_ascii_of_string s).

Definition email_pattern (s : string) : Prop :=
  exists local domain tld : list ascii,
    list_ascii_of_string s
    = (local ++ "@"%char :: domain ++ "."%char :: tld)%list
    /\ local <> [] /\ Forall is_email_local_char local
    /\ domain <> [] /\ Forall is_email_domain_char domain
    /\ (2 <= List.length tld)%nat /\ Forall is_letter tld.

(** Does a repetition count respect the upper bound of a quantifier? *)
Definition within_max (n : nat) (mx : option nat) : Prop :=
  match mx with
  | Some m => (n <= m)%nat
  | None => True
  end.

(** What a pattern denotes: the text splits into consecutive pieces, one per
    atom, each of an admissible length and within the atom's class. *)
Fixpoint denotes (p : Regex.pattern) (s : list ascii) : Prop :=
  match p with
  | [] => s = []
  | a :: p' =>
      exists piece rest,
        s = (piece ++ rest)%list
        /\ (Regex.rmin a <= List.length piece)%nat
        /\ within_max (List.length piece) (Regex.rmax a)
        /\ Forall (fun c => Regex.accepts a c = true) piece
        /\ denotes p' rest
  end.


(** Nothing was written to the directory between [w] and [w']: the state
    of the backend is the same and every request sent since is a query. *)
Definition directory_untouched {B : DirectoryBackend} (w w' : world B) : Prop :=
  w_db w' = w_db w
  /\ forall req, In (GqlSent req) (w_trace w') ->
                 In (GqlSent req) (w_trace w) \/ is_mutation req = false.

(** The state of the [Promise.all] agrees with the tasks: while it is
    pending no task is rejected; it is fulfilled only when every task is;
    when it is rejected, a task was rejected for that reason and the reason
    was passed to [report_error] since the fan-out began ([since] is what was
    sent from then on). *)
Definition promise_all_consistent {B : DirectoryBackend}
           (f : fanout B) (since : list event) : Prop :=
  match fo_all f with
  | AllPending => forall i c e, nth_error (fo_tasks f) i <> Some (c, Rejected e)
  | AllFulfilled => forallb (@is_fulfilled) (fo_tasks f) = true
  | AllRejected e =>
      In (ReportError e) since
      /\ exists i c, nth_error (fo_tasks f) i = Some (c, Rejected e)
  end.

(* ------------------------------------------------------------------ *)
(** *** Auxiliary notions for the further properties *)


(** Number of occurrences of a character in a string. *)
Definition count_char (c : ascii) (s : string) : nat :=
  count_occ ascii_dec (list_ascii_of_string s) c.

(** How far a task of the fan-out has come: the number of awaits behind it
    (3: it has ended). *)
Definition task_rank (t : task) : nat :=
  match t with
  | AwaitMember => 0
  | AwaitAdd _ => 1
  | AwaitReply => 2
  | Fulfilled | Rejected _ => 3
  end.

(** The reply of the [catch] clause of [command_register]. *)
Definition generic_error_text : string :=
  "LLDAP server had an error. Please contact the administrator.".

(** A session before its first login, on the demo directory. *)
Definition logged_out_world : world RefDirectory.backend :=
  @Build_world RefDirectory.backend new_AuthManager demo_directory [].

(** The Bot API answers for chat A and fails for every other chat. *)
Definition flaky_api : TelegramApi :=
  {| tg_getChatMember := fun chat_id _ =>
       if chat_id =? -1001 then Ok Member
       else Throw (JsError "Bad Request: chat not found");
     tg_sendMessage := fun _ => Ok tt |}.

Definition queried_logged_out_world : world RefDirectory.backend :=
  add_trace logged_out_world (queries 42 [chat_A; chat_B]).

(** A backend that loses every race: it knows no user, finds none for any
    Telegram id, and rejects every creation. *)
Definition racing_backend : DirectoryBackend :=
  {| db_state := unit;
     db_user := fun uid _ => Throw (RefDirectory.not_found uid);
     db_users := fun _ _ => Ok [];
     db_createUser := fun _ _ _ st =>
       (Throw (JsError "Database error: UNIQUE constraint failed: users.user_id"), st);
     db_addUserToGroup := fun _ _ st => (Ok true, st) |}.

Definition racing_world : world racing_backend :=
  @Build_world racing_backend logged_in tt [].
Definition queried_racing_world : world racing_backend :=
  add_trace racing_world (queries 42 [chat_A; chat_B]).

(** The rank of the [i]-th task of a fan-out (3 when there is none). *)
Definition task_rank_at {B : DirectoryBackend} (f : fanout B) (i : nat) : nat :=
  match nth_error (fo_tasks f) i with
  | Some (_, t) => task_rank t
  | None => 3
  end.

(** A deployment with chat B as its only trust domain. *)
Definition single_config : TgConfig :=
  {| log_chat_id := -1000;
     authorized_chats := [chat_B];
     member_types := member_types demo_config |}.


(** [message] holds the text [marker] somewhere. *)
Definition mentions (marker message : string) : Prop :=
  exists before after : string, message = before ++ marker ++ after.

(** [err] is an instance of [Error] whose message is [message]. *)
Definition is_Error_with (err : exn) (message : string) : Prop :=
  err = JsError message \/ err = CommandArgsError message.

(** The integers that [Number.isSafeInteger] accepts. *)
Definition is_safe_integer (n : Z) : Prop :=
  -9007199254740991 <= n <= 9007199254740991.

(** What [gql_client.request] rejects with when the answer carries an
    [errors] payload: graphql-request's [ClientError], whose message is the
    message of the first error, a colon, and the JSON text of response and
    request, the variables of the request included.  The JSON text is cut
    down here to the variables of [GetUserFromId]. *)
Definition client_error (first_error user_id : string) : exn :=
  JsError (first_error ++ ": {" ++ double_quote ++ "user_id" ++ double_quote
           ++ ":" ++ double_quote ++ user_id ++ double_quote ++ "}").

(** The reference directory behind a server that answers every
    [user(userId:)] query with an internal error. *)
Definition failing_backend : DirectoryBackend :=
  {| db_state := RefDirectory.state;
     db_user := fun uid _ => Throw (client_error "Internal server error" uid);
     db_users := RefDirectory.users_by_telegram_id;
     db_createUser := RefDirectory.createUser;
     db_addUserToGroup := RefDirectory.addUserToGroup |}.

(** A directory that holds a user whose identifier is the text of the
    marker. *)
Definition marker_directory : RefDirectory.state :=
  snd (RefDirectory.createUser "7" "Entity not found" "e@example.com"
                               demo_directory).

Definition failing_world : world failing_backend :=
  @Build_world failing_backend logged_in marker_directory [].

(* ================================================================== *)
(** * Properties *)

(** ** Strings and patterns *)

Lemma prefix_app (n rest : string) : String.prefix n (n ++ rest) = true.
Proof.
  induction n as [|c n IH]; simpl.
  - destruct rest; reflexivity.
  - destruct (ascii_dec c c) as [_|ne]; [exact IH | now elim ne].
Qed.

Lemma includes_unfold (n hay : string) :
  JsString.includes n hay
  = String.prefix n hay
    || match hay with
       | EmptyString => false
       | String _ rest => JsString.includes n rest
       end.
Proof. destruct hay; reflexivity. Qed.

Lemma includes_here (n rest : string) : JsString.includes n (n ++ rest) = true.
Proof. rewrite includes_unfold, prefix_app. reflexivity. Qed.

Lemma includes_later (n pre hay : string) :
  JsString.includes n hay = true -> JsString.includes n (pre ++ hay) = true.
Proof.
  intros H. induction pre as [|c pre IH]; [exact H|].
  rewrite includes_unfold. change (JsString.includes n (pre ++ hay)) with
    (JsString.includes n (pre ++ hay)) in IH.
  simpl. rewrite IH. apply orb_true_r.
Qed.



Lemma includes_infix (n pre post : string) :
  JsString.includes n (pre ++ n ++ post) = true.
Proof. apply includes_later, includes_here. Qed.

Lemma prefix_decompose (n : string) :
  forall hay, String.prefix n hay = true -> exists after, hay = n ++ after.
Proof.
  induction n as [|a n IH]; intros hay H.
  - exists hay. reflexivity.
  - destruct hay as [|b hay]; [discriminate H|]. simpl in H.
    destruct (ascii_dec a b) as [-> | _]; [|discriminate H].
    destruct (IH hay H) as [after ->]. exists after. reflexivity.
Qed.

(** [includes] finds the marker exactly when the text holds it. *)
Lemma includes_mentions (n hay : string) :
  JsString.includes n hay = true <-> mentions n hay.
Proof.
  split.
  - induction hay as [|c hay IH]; rewrite includes_unfold; intros H;
      apply orb_true_iff in H; destruct H as [H | H]; try discriminate H.
    + destruct (prefix_decompose n _ H) as [after E].
      exists "", after. exact E.
    + destruct (prefix_decompose n _ H) as [after E].
      exists "", after. exact E.
    + destruct (IH H) as (before & after & ->).
      exists (String c before), after. reflexivity.
  - intros (before & after & ->). apply includes_infix.
Qed.

Lemma in_range_spec (lo hi c : ascii) :
  Regex.in_range lo hi c = true
  <-> ascii_between (N_of_ascii lo) (N_of_ascii hi) c.
Proof.
  unfold Regex.in_range, ascii_between.
  rewrite andb_true_iff, !N.leb_le. tauto.
Qed.

Lemma one_of_spec (chars : string) (c : ascii) :
  Regex.one_of chars c = true <-> In c (list_ascii_of_string chars).
Proof.
  unfold Regex.one_of. rewrite existsb_exists. split.
  - intros (x & Hin & Heq). apply Ascii.eqb_eq in Heq. now subst.
  - intros Hin. exists c. split; [exact Hin | apply Ascii.eqb_refl].
Qed.

Lemma letter_spec (c : ascii) :
  Regex.lower c || Regex.upper c = true <-> is_letter c.
Proof.
  unfold Regex.lower, Regex.upper, is_letter.
  rewrite orb_true_iff, !in_range_spec. reflexivity.
Qed.

Lemma digit_spec (c : ascii) : Regex.digit c = true <-> is_digit c.
Proof. unfold Regex.digit, is_digit. apply in_range_spec. Qed.

Lemma username_class_spec (c : ascii) :
  username_class c = true <-> is_username_char c.
Proof.
  unfold username_class, is_username_char.
  rewrite orb_true_iff, orb_true_iff, letter_spec, digit_spec, one_of_spec.
  simpl. intuition congruence.
Qed.

Lemma email_local_class_spec (c : ascii) :
  email_local_class c = true <-> is_email_local_char c.
Proof.
  unfold email_local_class, is_email_local_char.
  rewrite orb_true_iff, orb_true_iff, letter_spec, digit_spec, one_of_spec.
  simpl. intuition congruence.
Qed.

Lemma email_domain_class_spec (c : ascii) :
  email_domain_class c = true <-> is_email_domain_char c.
Proof.
  unfold email_domain_class, is_email_domain_char.
  rewrite orb_true_iff, orb_true_iff, letter_spec, digit_spec, one_of_spec.
  simpl. intuition congruence.
Qed.

(** A repetition succeeds exactly when some admissible number of leading
    characters is in the class and the continuation accepts the rest. *)
Lemma repeat_class_spec (cls : ascii -> bool) (k : list ascii -> bool) :
  forall (s : list ascii) (mn : nat) (mx : option nat),
    Regex.repeat_class cls mn mx s k = true
    <-> exists n, (mn <= n)%nat /\ within_max n mx /\ (n <= List.length s)%nat
                  /\ forallb cls (firstn n s) = true /\ k (skipn n s) = true.
Proof.
  induction s as [|c rest IH]; intros mn mx; simpl.
  - rewrite andb_true_iff, Nat.eqb_eq. split.
    + intros [-> Hk]. exists 0%nat. destruct mx as [m|]; simpl; repeat split; auto; lia.
    + intros (n & Hmn & _ & Hlen & _ & Hk).
      assert (n = 0)%nat by lia. subst n. simpl in Hk. split; [lia | exact Hk].
  - rewrite orb_true_iff, !andb_true_iff, Nat.eqb_eq, IH. split.
    + intros [[[Hc Hrep] (n & Hmn & Hmx & Hlen & Hall & Hk)] | [-> Hk]].
      * exists (S n). simpl. rewrite Hc, Hall. repeat split; auto; try lia.
        destruct mx as [[|m]|]; simpl in *; try discriminate; auto; lia.
      * exists 0%nat. destruct mx as [m|]; simpl; repeat split; auto; lia.
    + intros ([|n] & Hmn & Hmx & Hlen & Hall & Hk); simpl in *.
      * right. split; [lia | exact Hk].
      * left. apply andb_true_iff in Hall as [Hc Hall]. repeat split; auto.
        -- destruct mx as [[|m]|]; simpl in *; auto; lia.
        -- exists n. repeat split; auto; try lia.
           destruct mx as [[|m]|]; simpl in *; auto; lia.
Qed.

Lemma match_from_spec (p : Regex.pattern) :
  forall s, Regex.match_from p s = true <-> denotes p s.
Proof.
  induction p as [|a p IH]; intros s; simpl.
  - destruct s; split; congruence.
  - rewrite repeat_class_spec. split.
    + intros (n & Hmn & Hmx & Hlen & Hall & Hk).
      exists (firstn n s), (skipn n s).
      rewrite firstn_skipn, length_firstn, Nat.min_l by exact Hlen.
      repeat split; auto.
      * apply Forall_forall. rewrite forallb_forall in Hall. exact Hall.
      * apply IH, Hk.
    + intros (piece & rest & -> & Hmn & Hmx & Hall & Hrest).
      exists (List.length piece).
      rewrite firstn_app, Nat.sub_diag, firstn_all, skipn_app, Nat.sub_diag,
        skipn_all, length_app. simpl. rewrite app_nil_r.
      repeat split; auto; try lia.
      * apply forallb_forall. rewrite Forall_forall in Hall. exact Hall.
      * apply IH, Hrest.
Qed.

Lemma length_list_ascii_of_string (s : string) :
  List.length (list_ascii_of_string s) = String.length s.
Proof. induction s; simpl; congruence. Qed.

Lemma Forall_iff {A} (P Q : A -> Prop) (l : list A) :
  (forall x, P x <-> Q x) -> Forall P l <-> Forall Q l.
Proof.
  intros H. rewrite !Forall_forall. split; intros G x Hx; apply H, G, Hx.
Qed.

(** The username test accepts exactly the strings of the pattern. *)
Lemma username_test_spec (s : string) :
  Regex.test username_regex s = true <-> username_pattern s.
Proof.
  unfold Regex.test, username_pattern. rewrite match_from_spec.
  rewrite <- length_list_ascii_of_string.
  rewrite <- (Forall_iff _ _ _ username_class_spec).
  generalize (list_ascii_of_string s) as l. intros l. simpl. split.
  - intros (piece & rest & -> & Hmn & Hmx & Hall & ->).
    rewrite app_nil_r. auto.
  - intros [[Hmn Hmx] Hall]. exists l, []. rewrite app_nil_r. auto.
Qed.

Lemma Forall_eqb_single (c : ascii) (piece : list ascii) :
  (1 <= List.length piece)%nat -> (List.length piece <= 1)%nat ->
  Forall (fun x => Ascii.eqb c x = true) piece -> piece = [c].
Proof.
  destruct piece as [|x [|y piece]]; simpl; intros H1 H2 H; try lia.
  inversion H as [|? ? Hx _]; subst. apply Ascii.eqb_eq in Hx. now subst.
Qed.

Lemma tld_class_spec (c : ascii) : email_tld_class c = true <-> is_letter c.
Proof. unfold email_tld_class. apply letter_spec. Qed.

Lemma denotes_cons (a : Regex.atom) (p : Regex.pattern) (piece rest : list ascii) :
  (Regex.rmin a <= List.length piece)%nat ->
  within_max (List.length piece) (Regex.rmax a) ->
  Forall (fun c => Regex.accepts a c = true) piece ->
  denotes p rest ->
  denotes (a :: p) (piece ++ rest).
Proof. intros. exists piece, rest. auto. Qed.

Lemma Forall_eqb_refl (c : ascii) : Forall (fun x => Ascii.eqb c x = true) [c].
Proof. repeat constructor. apply Ascii.eqb_refl. Qed.

(** The email test accepts exactly the strings [local@domain.tld]. *)
Lemma email_test_spec (s : string) :
  Regex.test email_regex s = true <-> email_pattern s.
Proof.
  unfold Regex.test, email_pattern. rewrite match_from_spec.
  generalize (list_ascii_of_string s) as l. intros l.
  pose proof (fun l => Forall_iff _ _ l email_local_class_spec) as Floc.
  pose proof (fun l => Forall_iff _ _ l email_domain_class_spec) as Fdom.
  pose proof (fun l => Forall_iff _ _ l tld_class_spec) as Ftld.
  split.
  - unfold email_regex, Regex.class, Regex.once.
    cbn [denotes Regex.rmin Regex.rmax Regex.accepts within_max].
    intros (local & r1 & -> & Hl & _ & Hlocal
            & at_ & r2 & -> & Ha1 & Ha2 & Hat
            & domain & r3 & -> & Hd & _ & Hdomain
            & dot & r4 & -> & Hp1 & Hp2 & Hdot
            & tld & r5 & -> & Ht & _ & Htld & ->).
    apply Forall_eqb_single in Hat; auto. apply Forall_eqb_single in Hdot; auto.
    subst at_ dot. exists local, domain, tld. rewrite app_nil_r.
    apply Floc in Hlocal. apply Fdom in Hdomain. apply Ftld in Htld.
    repeat split; auto.
    + intros ->. simpl in Hl. lia.
    + intros ->. simpl in Hd. lia.
  - intros (local & domain & tld & -> & Hl & Hlocal & Hd & Hdomain & Ht & Htld).
    apply Floc in Hlocal. apply Fdom in Hdomain. apply Ftld in Htld.
    replace (local ++ "@"%char :: domain ++ "."%char :: tld)%list
      with (local ++ ["@"%char] ++ domain ++ ["."%char] ++ tld ++ [])%list
      by (rewrite app_nil_r; reflexivity).
    unfold email_regex, Regex.class, Regex.once.
    apply denotes_cons; cbn [Regex.rmin Regex.rmax Regex.accepts within_max];
      [destruct local; [congruence | simpl; lia] | exact I | exact Hlocal | ].
    apply denotes_cons; cbn [Regex.rmin Regex.rmax Regex.accepts within_max];
      [simpl; lia | simpl; lia | apply Forall_eqb_refl | ].
    apply denotes_cons; cbn [Regex.rmin Regex.rmax Regex.accepts within_max];
      [destruct domain; [congruence | simpl; lia] | exact I | exact Hdomain | ].
    apply denotes_cons; cbn [Regex.rmin Regex.rmax Regex.accepts within_max];
      [simpl; lia | simpl; lia | apply Forall_eqb_refl | ].
    apply denotes_cons; cbn [Regex.rmin Regex.rmax Regex.accepts within_max];
      [exact Ht | exact I | exact Htld | reflexivity].
Qed.

Example split_keeps_empty_pieces :
  JsString.split " " "/register alice  a@b.co"
  = ["/register"; "alice"; ""; "a@b.co"].
Proof. reflexivity. Qed.

Example split_trailing_space :
  JsString.split " " "/register alice a@b.co " = ["/register"; "alice"; "a@b.co"; ""].
Proof. reflexivity. Qed.

Example split_without_separator : JsString.split " " "" = [""].
Proof. reflexivity. Qed.

Example username_too_short : Regex.test username_regex "ab" = false.
Proof. reflexivity. Qed.

Example username_with_dash : Regex.test username_regex "al-ice" = false.
Proof. reflexivity. Qed.

Example email_accepted : Regex.test email_regex "a.b@mail.example.com" = true.
Proof. reflexivity. Qed.

Example email_short_tld : Regex.test email_regex "alice@example.c" = false.
Proof. reflexivity. Qed.

Example email_digit_tld : Regex.test email_regex "alice@example.c0m" = false.
Proof. reflexivity. Qed.

Example number_rendering : JsString.of_number (-1001234) = "-1001234".
Proof. reflexivity. Qed.

(* ------------------------------------------------------------------ *)
(** ** The credential session *)



(* ------------------------------------------------------------------ *)
(** ** The directory client *)

Section ClientFacts.

Variable B : DirectoryBackend.
Implicit Type w : world B.

Lemma request_query_logged_in {A} req (serve : db_state B -> result A) w tok :
  getToken (w_auth w) = Ok tok ->
  request_query req serve w = (serve (w_db w), add_trace w [GqlSent req]).
Proof. unfold request_query. intros ->. reflexivity. Qed.


Lemma get_user_by_id_cases uid w :
  get_user_by_id uid w
  = match request_query (GetUserFromId uid) (db_user B uid) w with
    | (Ok res, w') =>
        (Ok (Some {| du_id := up_id res;
                     du_telegram_id := find_telegram_id (up_attributes res);
                     du_email := up_email res |}), w')
    | (Throw err, w') =>
        if entity_not_found err then (Ok None, w') else (Throw err, w')
    end.
Proof.
  unfold get_user_by_id, try_catch, bind, ret, throw.
  destruct (request_query _ _ w) as [[res|err] w']; [reflexivity|].
  destruct (entity_not_found err); reflexivity.
Qed.

Lemma get_user_by_id_outcomes uid w :
  (forall res,
      fst (request_query (GetUserFromId uid) (db_user B uid) w) = Ok res ->
      fst (get_user_by_id uid w)
      = Ok (Some {| du_id := up_id res;
                    du_telegram_id := find_telegram_id (up_attributes res);
                    du_email := up_email res |}))
  /\ (forall err,
        fst (request_query (GetUserFromId uid) (db_user B uid) w) = Throw err ->
        entity_not_found err = true ->
        fst (get_user_by_id uid w) = Ok None)
  /\ (forall err,
        fst (request_query (GetUserFromId uid) (db_user B uid) w) = Throw err ->
        entity_not_found err = false ->
        fst (get_user_by_id uid w) = Throw err).
Proof.
  rewrite get_user_by_id_cases.
  destruct (request_query _ _ w) as [[res|err] w']; simpl;
    repeat split; intros x Hx; inversion Hx; subst; try reflexivity;
    intros ->; reflexivity.
Qed.



End ClientFacts.


Lemma not_found_is_recognised (what : string) :
  entity_not_found (RefDirectory.not_found what) = true.
Proof.
  unfold entity_not_found, RefDirectory.not_found.
  change (exn_message (JsError ("Entity not found: " ++ what)))
    with ("Entity not found" ++ (": " ++ what))%string.
  rewrite includes_here. reflexivity.
Qed.

(** The test of the [catch] clause holds exactly for the instances of
    [Error] whose message holds the marker. *)
Lemma entity_not_found_spec (err : exn) :
  entity_not_found err = true
  <-> exists m, is_Error_with err m /\ mentions "Entity not found" m.
Proof.
  unfold entity_not_found, is_Error_with. rewrite andb_true_iff, includes_mentions.
  split.
  - intros [Hinst Hm]. destruct err as [m|m|p]; try discriminate Hinst;
      exists m; auto.
  - intros (m & [-> | ->] & Hm); auto.
Qed.

(** C3, as the code has it: without a token [get_user_by_id] throws "Not
    logged in" and sends nothing.  With a token it sends one [GetUserFromId]
    query; it returns the user of the payload; it returns "none" whenever
    the request fails with an instance of [Error] whose message holds the
    text "Entity not found" anywhere (the backend's signal for a missing
    user, but just as well any other failure whose message holds that text);
    and it rethrows as it is every failure that is no such instance.
    Against the reference directory, with a token held, the lookup of an
    identifier that no user has returns "none". *)
Theorem get_user_by_id_none_iff_marker :
  forall (B : DirectoryBackend) (uid : string) (w : world B),
    (token (w_auth w) = TokNull ->
     get_user_by_id uid w = (Throw (JsError "Not logged in"), w))
    /\ (forall tok,
          getToken (w_auth w) = Ok tok ->
          snd (get_user_by_id uid w) = add_trace w [GqlSent (GetUserFromId uid)]
          /\ (forall res,
                db_user B uid (w_db w) = Ok res ->
                fst (get_user_by_id uid w)
                = Ok (Some {| du_id := up_id res;
                              du_telegram_id := find_telegram_id (up_attributes res);
                              du_email := up_email res |}))
          /\ (forall err m,
                db_user B uid (w_db w) = Throw err ->
                is_Error_with err m -> mentions "Entity not found" m ->
                fst (get_user_by_id uid w) = Ok None)
          /\ (forall err,
                db_user B uid (w_db w) = Throw err ->
                (forall m, is_Error_with err m -> ~ mentions "Entity not found" m) ->
                fst (get_user_by_id uid w) = Throw err))
    /\ (forall (d : RefDirectory.state) (am : AuthManager) (tr : list event),
          token am <> TokNull ->
          find (RefDirectory.has_id uid) (RefDirectory.users d) = None ->
          fst (get_user_by_id uid (@Build_world RefDirectory.backend am d tr))
          = Ok None).
Proof.
  intros B uid w. split; [|split].
  - intros Htok. rewrite get_user_by_id_cases. unfold request_query, getToken.
    rewrite Htok. reflexivity.
  - intros tok Htok. rewrite get_user_by_id_cases.
    rewrite (@request_query_logged_in B _ _ _ w tok Htok).
    split; [|split; [|split]].
    + destruct (db_user B uid (w_db w)) as [res|err]; [reflexivity|].
      destruct (entity_not_found err); reflexivity.
    + intros res ->. reflexivity.
    + intros err m -> Herr Hm.
      assert (Hnf : entity_not_found err = true)
        by (apply entity_not_found_spec; exists m; auto).
      rewrite Hnf. reflexivity.
    + intros err -> Hno.
      destruct (entity_not_found err) eqn:Hnf; [|reflexivity].
      apply entity_not_found_spec in Hnf. destruct Hnf as (m & Herr & Hm).
      elim (Hno m Herr Hm).
  - intros d am tr Htok Hfind.
    rewrite get_user_by_id_cases. unfold request_query, getToken. simpl.
    destruct (token am) eqn:E; [congruence| |];
      unfold RefDirectory.user; rewrite Hfind, not_found_is_recognised;
      reflexivity.
Qed.

Lemma get_user_by_id_none_iff_marker_witness :
  getToken (w_auth failing_world) = Ok (TokString "jwt")
  /\ db_user failing_backend "alice" (w_db failing_world)
     = Throw (client_error "Internal server error" "alice")
  /\ (forall m, is_Error_with (client_error "Internal server error" "alice") m ->
                ~ mentions "Entity not found" m)
  /\ fst (get_user_by_id "alice" failing_world)
     = Throw (client_error "Internal server error" "alice").
Proof.
  assert (Hno : forall m,
             is_Error_with (client_error "Internal server error" "alice") m ->
             ~ mentions "Entity not found" m).
  { intros m Herr Hm.
    assert (Hnf : entity_not_found (client_error "Internal server error" "alice")
                  = true)
      by (apply entity_not_found_spec; exists m; auto).
    discriminate Hnf. }
  split; [reflexivity|]. split; [reflexivity|]. split; [exact Hno|].
  destruct (proj1 (proj2 (@get_user_by_id_none_iff_marker failing_backend "alice"
                            failing_world))
                  (TokString "jwt") eq_refl) as (_ & _ & _ & H).
  exact (H _ eq_refl Hno).
Defined.

(** C3, counterexample.  The lookup of an identifier that no user has
    raises when the session holds no token; and an internal error of the
    server about a user that exists is turned into "none" instead of being
    rethrown, because the message of the rejection quotes the requested
    identifier and that identifier holds the text of the marker. *)
Lemma get_user_by_id_is_not_exact :
  find (RefDirectory.has_id "nobody") (RefDirectory.users (w_db logged_out_world))
  = None
  /\ fst (get_user_by_id "nobody" logged_out_world)
     = Throw (JsError "Not logged in")
  /\ existsb (RefDirectory.has_id "Entity not found")
             (RefDirectory.users (w_db failing_world)) = true
  /\ db_user failing_backend "Entity not found" (w_db failing_world)
     = Throw (client_error "Internal server error" "Entity not found")
  /\ fst (get_user_by_id "Entity not found" failing_world) = Ok None.
Proof. repeat split. Qed.

(* ------------------------------------------------------------------ *)
(** ** Privilege resolution *)

Section AuthStatusFacts.

Variable B : DirectoryBackend.
Variable api : TelegramApi.
Variable config : TgConfig.
Implicit Type w : world B.

(** The membership state of the caller in each chat, and its weight. *)
Variable states : Z -> member_status.
Let weight (c : AuthorizedChat) : Z :=
  member_type (member_types config) (states (chat c)).

Lemma add_trace_nil w : add_trace w [] = w.
Proof. unfold add_trace. rewrite app_nil_r. destruct w; reflexivity. Qed.

Lemma add_trace_app w evs evs' :
  add_trace (add_trace w evs) evs' = add_trace w (evs ++ evs').
Proof. unfold add_trace. simpl. rewrite app_assoc. reflexivity. Qed.

(** Invariant of the loop of the private branch: the accumulator either
    survives, when no weight exceeds it, or is replaced by the first chat
    of greatest weight. *)
Lemma max_over_chats_first_maximum (user : Z) :
  forall chats m d n w,
    (forall c, In c chats ->
               tg_getChatMember api (chat c) user = Ok (states (chat c))) ->
    exists m' d' n',
      max_over_chats api config chats user (m, d, n) w
      = (Ok (m', d', n'), add_trace w (queries user chats))
      /\ ((m' = m /\ d' = d /\ n' = n /\ forall c, In c chats -> weight c <= m)
          \/ (exists pre c post,
                 chats = (pre ++ c :: post)%list
                 /\ m' = weight c /\ d' = chat c /\ n' = nickname c
                 /\ m < m'
                 /\ (forall c', In c' pre -> weight c' < m')
                 /\ (forall c', In c' post -> weight c' <= m'))).
Proof.
  induction chats as [|c rest IH]; intros m d n w Hok.
  - exists m, d, n. simpl. unfold ret. rewrite add_trace_nil.
    split; [reflexivity|]. left. repeat split; auto. intros c [].
  - assert (Hrest : forall c', In c' rest ->
              tg_getChatMember api (chat c') user = Ok (states (chat c')))
      by (intros c' Hc'; apply Hok; right; exact Hc').
    assert (Hc : tg_getChatMember api (chat c) user = Ok (states (chat c)))
      by (apply Hok; left; reflexivity).
    cbn [max_over_chats]. unfold bind at 1, getChatMember at 1. rewrite Hc.
    fold (weight c).
    destruct (weight c >? m) eqn:Hgt.
    + apply Z.gtb_lt in Hgt.
      destruct (IH (weight c) (chat c) (nickname c)
                   (add_trace w [GetChatMember (chat c) user]) Hrest)
        as (m' & d' & n' & Hrun & Hcases).
      exists m', d', n'. rewrite Hrun, add_trace_app. split; [reflexivity|].
      right. destruct Hcases as [(-> & -> & -> & Hle)
                                | (pre & c2 & post & -> & -> & -> & -> & Hlt & Hpre & Hpost)].
      * exists [], c, rest. repeat split; auto. intros c' [].
      * exists (c :: pre), c2, post. repeat split; auto; try lia.
        intros c' [<- | Hin]; [exact Hlt | apply Hpre, Hin].
    + assert (weight c <= m) by (rewrite Z.gtb_ltb, Z.ltb_ge in Hgt; exact Hgt).
      destruct (IH m d n (add_trace w [GetChatMember (chat c) user]) Hrest)
        as (m' & d' & n' & Hrun & Hcases).
      exists m', d', n'. rewrite Hrun, add_trace_app. split; [reflexivity|].
      destruct Hcases as [(-> & -> & -> & Hle)
                         | (pre & c2 & post & -> & -> & -> & -> & Hlt & Hpre & Hpost)].
      * left. repeat split; auto. intros c' [<- | Hin]; auto.
      * right. exists (c :: pre), c2, post. repeat split; auto.
        intros c' [<- | Hin]; [lia | apply Hpre, Hin].
Qed.

Lemma auth_status_private (ctx : Ctx) (user : TgUser) (ch : TgChat) w :
  from ctx = Some user -> ctx_chat ctx = Some ch -> type ch = Private ->
  (forall c, In c (authorized_chats config) ->
             tg_getChatMember api (chat c) (user_id user) = Ok (states (chat c))) ->
  snd (auth_status api config ctx w)
  = add_trace w (queries (user_id user) (authorized_chats config))
  /\ match fst (auth_status api config ctx w) with
     | Ok (StatusPrivileged level d nick) =>
         0 < level
         /\ exists pre c post,
             authorized_chats config = (pre ++ c :: post)%list
             /\ level = weight c /\ d = chat c /\ nick = nickname c
             /\ (forall c', In c' pre -> weight c' < level)
             /\ (forall c', In c' post -> weight c' <= level)
     | Ok StatusNone =>
         forall c, In c (authorized_chats config) -> weight c <= 0
     | Throw _ => False
     end.
Proof.
  intros Hfrom Hchat Htype Hok. unfold auth_status.
  rewrite Hfrom, Hchat, Htype. unfold bind.
  destruct (max_over_chats_first_maximum (user_id user) (authorized_chats config)
              (-1) (-1) "" w Hok) as (m' & d' & n' & Hrun & Hcases).
  rewrite Hrun.
  destruct (m' >? 0) eqn:Hpos; unfold ret; simpl; (split; [reflexivity|]).
  - apply Z.gtb_lt in Hpos. split; [exact Hpos|].
    destruct Hcases as [(-> & _) | (pre & c & post & Hsplit & -> & -> & -> & _ & Hpre & Hpost)];
      [lia|].
    exists pre, c, post. repeat split; auto.
  - rewrite Z.gtb_ltb, Z.ltb_ge in Hpos.
    destruct Hcases as [(-> & _ & _ & Hle) | (pre & c & post & Hsplit & -> & -> & -> & _ & Hpre & Hpost)].
    + intros c Hc. specialize (Hle c Hc). lia.
    + intros c' Hc'. rewrite Hsplit in Hc'. apply in_app_or in Hc'.
      destruct Hc' as [Hin | [<- | Hin]]; [specialize (Hpre c' Hin) | | specialize (Hpost c' Hin)]; lia.
Qed.

End AuthStatusFacts.

(** C2: in a private chat, when the membership queries succeed,
    [auth_status] issues one [getChatMember] per configured chat, in
    configuration order, and nothing else; it answers "privileged" exactly
    with a level above 0 that is the weight of some configured chat, greater
    than the weight of every chat configured before it and not less than
    the weight of any chat configured after it, together with the id and
    nickname of that chat; it answers "none" when no weight exceeds 0.  With
    domains A (member: 2) and B (administrator: 5) and a caller who is member
    in A and administrator in B the answer is privileged, level 5, chat B. *)
Theorem auth_status_private_first_maximum :
  forall (B : DirectoryBackend) (api : TelegramApi) (config : TgConfig)
         (states : Z -> member_status)
         (ctx : Ctx) (user : TgUser) (ch : TgChat) (w : world B),
    from ctx = Some user -> ctx_chat ctx = Some ch -> type ch = Private ->
    (forall c, In c (authorized_chats config) ->
               tg_getChatMember api (chat c) (user_id user) = Ok (states (chat c))) ->
    let weight c := member_type (member_types config) (states (chat c)) in
    snd (auth_status api config ctx w)
    = add_trace w (queries (user_id user) (authorized_chats config))
    /\ match fst (auth_status api config ctx w) with
       | Ok (StatusPrivileged level d nick) =>
           0 < level
           /\ exists pre c post,
               authorized_chats config = (pre ++ c :: post)%list
               /\ level = weight c /\ d = chat c /\ nick = nickname c
               /\ (forall c', In c' pre -> weight c' < level)
               /\ (forall c', In c' post -> weight c' <= level)
       | Ok StatusNone =>
           forall c, In c (authorized_chats config) -> weight c <= 0
       | Throw _ => False
       end
    /\ fst (auth_status demo_api demo_config (private_ctx "/mystatus") demo_world)
       = Ok (StatusPrivileged 5 (-1002) "B").
Proof.
  intros B api config states ctx user ch w Hfrom Hchat Htype Hok weight.
  destruct (@auth_status_private B api config states ctx user ch w
              Hfrom Hchat Htype Hok) as [H1 H2].
  split; [exact H1|]. split; [exact H2 | reflexivity].
Qed.

Lemma auth_status_private_first_maximum_witness :
  (forall c, In c (authorized_chats demo_config) ->
             tg_getChatMember demo_api (chat c) (user_id alice)
             = Ok (demo_states (chat c)))
  /\ snd (auth_status demo_api demo_config (private_ctx "/mystatus") demo_world)
     = queried_world.
Proof.
  assert (H : forall c, In c (authorized_chats demo_config) ->
                tg_getChatMember demo_api (chat c) (user_id alice)
                = Ok (demo_states (chat c))).
  { intros c [<- | [<- | []]]; reflexivity. }
  split; [exact H|].
  exact (proj1 (@auth_status_private_first_maximum RefDirectory.backend demo_api
                  demo_config demo_states (private_ctx "/mystatus") alice
                  {| chat_id := 42; type := Private |} demo_world
                  eq_refl eq_refl eq_refl H)).
Defined.

(** C9: in a group or supergroup whose chat id is configured, when the
    membership query succeeds, [auth_status] answers "privileged" with the
    weight of the caller's membership state as level, whatever that weight
    is (also when it is 0 or negative), with the id of the chat and the
    nickname of its first configuration entry. *)
Theorem auth_status_group_any_weight :
  forall (B : DirectoryBackend) (api : TelegramApi) (config : TgConfig)
         (ctx : Ctx) (user : TgUser) (ch : TgChat) (good_chat : AuthorizedChat)
         (status : member_status) (w : world B),
    from ctx = Some user -> ctx_chat ctx = Some ch ->
    type ch = Group \/ type ch = Supergroup ->
    find (fun x => chat x =? chat_id ch) (authorized_chats config) = Some good_chat ->
    tg_getChatMember api (chat_id ch) (user_id user) = Ok status ->
    auth_status api config ctx w
    = (Ok (StatusPrivileged (member_type (member_types config) status)
                            (chat_id ch) (nickname good_chat)),
       add_trace w [GetChatMember (chat_id ch) (user_id user)]).
Proof.
  intros B api config ctx user ch good_chat status w Hfrom Hchat Htype Hfind Hst.
  unfold auth_status. rewrite Hfrom, Hchat.
  destruct Htype as [-> | ->]; rewrite Hfind;
    unfold bind, getChatMember, ret; rewrite Hst; reflexivity.
Qed.

Lemma auth_status_group_any_weight_witness :
  find (fun x => chat x =? -1001) (authorized_chats demo_config) = Some chat_A
  /\ tg_getChatMember left_api (-1001) 42 = Ok Left
  /\ fst (auth_status left_api demo_config (group_ctx (-1001)) demo_world)
     = Ok (StatusPrivileged (-1) (-1001) "A").
Proof.
  split; [reflexivity|]. split; [reflexivity|].
  rewrite (@auth_status_group_any_weight RefDirectory.backend left_api demo_config
             (group_ctx (-1001)) alice {| chat_id := -1001; type := Supergroup |}
             chat_A Left demo_world eq_refl eq_refl (or_intror eq_refl)
             eq_refl eq_refl).
  reflexivity.
Defined.

(* ------------------------------------------------------------------ *)
(** ** The registration command *)

Section RegisterFacts.

Variable B : DirectoryBackend.
Variable api : TelegramApi.
Variable config : TgConfig.
Variable login_url : string.
Variable escapeHtml : string -> string.
Implicit Type w : world B.

Local Abbreviation register := (command_register api config login_url escapeHtml).
Local Abbreviation lookups_and_create :=
  (register_lookups_and_create (B:=B) login_url escapeHtml).

(** Whatever the Bot API answers, the loop of the private branch only adds
    membership queries for an initial segment of the configured chats. *)
Lemma max_over_chats_trace (user : Z) :
  forall chats acc w,
    exists n, snd (max_over_chats api config chats user acc w)
              = add_trace w (queries user (firstn n chats)).
Proof.
  induction chats as [|c rest IH]; intros [[m d] nick] w.
  - exists 0%nat. simpl. symmetry. apply add_trace_nil.
  - cbn [max_over_chats]. unfold bind at 1, getChatMember at 1.
    destruct (tg_getChatMember api (chat c) user) as [st|e].
    + destruct (member_type (member_types config) st >? m);
        [destruct (IH (member_type (member_types config) st, chat c, nickname c)
                      (add_trace w [GetChatMember (chat c) user])) as [n Hn]
        |destruct (IH (m, d, nick) (add_trace w [GetChatMember (chat c) user]))
          as [n Hn]];
        exists (S n); rewrite Hn, add_trace_app; reflexivity.
    + exists 1%nat. reflexivity.
Qed.

Lemma auth_status_trace (ctx : Ctx) w :
  exists evs, snd (auth_status api config ctx w) = add_trace w evs
              /\ forall req, ~ In (GqlSent req) evs.
Proof.
  unfold auth_status.
  destruct (from ctx) as [user|];
    [|exists []; rewrite add_trace_nil; split; [reflexivity | intros req []]].
  destruct (ctx_chat ctx) as [ch|];
    [|exists []; rewrite add_trace_nil; split; [reflexivity | intros req []]].
  destruct (type ch).
  - unfold bind.
    destruct (max_over_chats_trace (user_id user) (authorized_chats config)
                                   (-1, -1, "") w) as [n Hn].
    exists (queries (user_id user) (firstn n (authorized_chats config))).
    split.
    + destruct (max_over_chats _ _ _ _ _ w) as [[[[m d] nick]|e] w'];
        simpl in Hn; subst w'; [destruct (m >? 0)|]; reflexivity.
    + intros req Hin. unfold queries in Hin. apply in_map_iff in Hin.
      destruct Hin as (c & Hc & _). discriminate Hc.
  - destruct (find _ _);
      [|exists []; rewrite add_trace_nil; split; [reflexivity | intros req []]].
    exists [GetChatMember (chat_id ch) (user_id user)]. split.
    + unfold bind, getChatMember, ret.
      destruct (tg_getChatMember _ _ _); reflexivity.
    + intros req [Hc | []]. discriminate Hc.
  - destruct (find _ _);
      [|exists []; rewrite add_trace_nil; split; [reflexivity | intros req []]].
    exists [GetChatMember (chat_id ch) (user_id user)]. split.
    + unfold bind, getChatMember, ret.
      destruct (tg_getChatMember _ _ _); reflexivity.
    + intros req [Hc | []]. discriminate Hc.
  - exists []. rewrite add_trace_nil. split; [reflexivity | intros req []].
Qed.

Lemma directory_untouched_add_trace w evs :
  (forall req, In (GqlSent req) evs -> is_mutation req = false) ->
  directory_untouched w (add_trace w evs).
Proof.
  intros H. split; [reflexivity|]. intros req Hin. simpl in Hin.
  apply in_app_or in Hin. destruct Hin as [Hin | Hin]; [left | right]; auto.
Qed.

Lemma directory_untouched_trans w1 w2 w3 :
  directory_untouched w1 w2 -> directory_untouched w2 w3 ->
  directory_untouched w1 w3.
Proof.
  intros [Hdb Htr] [Hdb' Htr']. split; [congruence|].
  intros req Hin. destruct (Htr' req Hin) as [H | H]; auto.
Qed.

Lemma auth_status_untouched (ctx : Ctx) w :
  directory_untouched w (snd (auth_status api config ctx w)).
Proof.
  destruct (auth_status_trace ctx w) as (evs & -> & Hevs).
  apply directory_untouched_add_trace. intros req Hin. elim (Hevs req Hin).
Qed.

(** What [command_register] does once the caller passed the three gates
    (identified, private chat, privileged). *)
Lemma command_register_privileged (ctx : Ctx) (user : TgUser) (ch : TgChat)
      level d nick schedule w w1 :
  from ctx = Some user -> ctx_chat ctx = Some ch -> type ch = Private ->
  auth_status api config ctx w = (Ok (StatusPrivileged level d nick), w1) ->
  register ctx schedule w
  = match option_map (JsString.split " ") (message_text ctx) with
    | Some [_; username; email] =>
        if negb (Regex.test username_regex username)
        then (Some (Throw (CommandArgsError "Invalid username")), w1)
        else if negb (Regex.test email_regex email)
        then (Some (Throw (CommandArgsError "Invalid email")), w1)
        else
          match lookups_and_create user ch username email w1 with
          | (Throw err, w2) => (Some (Ok tt), snd (register_catch err w2))
          | (Ok false, w2) => (Some (Ok tt), w2)
          | (Ok true, w2) =>
              let f := run_tasks api config user username schedule
                                 (start_tasks config user w2) in
              (match fo_all f with
               | AllPending => None
               | _ => Some (Ok tt)
               end, fo_world f)
          end
    | _ => (Some (Throw (CommandArgsError "Invalid number of arguments")), w1)
    end.
Proof.
  intros Hfrom Hchat Htype Hauth. unfold command_register.
  rewrite Hfrom, Hchat. destruct ch as [cid ty]. simpl in Htype. subst ty.
  rewrite Hauth. reflexivity.
Qed.

Lemma length_three {A} (l : list A) :
  List.length l = 3%nat -> exists a b c, l = [a; b; c].
Proof.
  destruct l as [|a [|b [|c [|x l]]]]; simpl; intros H; try discriminate.
  eauto.
Qed.

(** C10: for an identified caller who is privileged in a private chat,
    [command_register] throws the argument error "Invalid number of
    arguments" exactly when the message has no text or its text does not
    split at single spaces into three pieces; it does so having sent nothing
    but the membership queries of the privilege check (no GraphQL request at
    all); a doubled space between the arguments and an extra trailing piece
    both give four pieces. *)
Theorem register_rejects_wrong_argument_count :
  forall (ctx : Ctx) (user : TgUser) (ch : TgChat) level d nick schedule w w1,
    from ctx = Some user -> ctx_chat ctx = Some ch -> type ch = Private ->
    auth_status api config ctx w = (Ok (StatusPrivileged level d nick), w1) ->
    let args := option_map (JsString.split " ") (message_text ctx) in
    ((forall l, args = Some l -> List.length l <> 3%nat) ->
     register ctx schedule w
     = (Some (Throw (CommandArgsError "Invalid number of arguments")), w1))
    /\ (forall l, args = Some l -> List.length l = 3%nat ->
        fst (register ctx schedule w)
        <> Some (Throw (CommandArgsError "Invalid number of arguments")))
    /\ (exists evs, w1 = add_trace w evs /\ forall req, ~ In (GqlSent req) evs)
    /\ List.length (JsString.split " " "/register alice  alice@example.com") = 4%nat
    /\ List.length (JsString.split " " "/register alice alice@example.com extra") = 4%nat.
Proof.
  intros ctx user ch level d nick schedule w w1 Hfrom Hchat Htype Hauth args.
  rewrite (@command_register_privileged ctx user ch level d nick schedule w w1
             Hfrom Hchat Htype Hauth).
  fold args. split; [|split; [|split; [|split; reflexivity]]].
  - intros Hlen. destruct args as [l|]; [|reflexivity].
    specialize (Hlen l eq_refl).
    destruct l as [|a [|b [|c [|x l]]]]; try reflexivity.
    now elim Hlen.
  - intros l -> Hlen. destruct (length_three _ Hlen) as (a & b & c & ->).
    destruct (negb (Regex.test username_regex b)); [discriminate|].
    destruct (negb (Regex.test email_regex c)); [discriminate|].
    destruct (lookups_and_create user ch b c w1) as [[[|]|err] w2];
      simpl; try discriminate.
    destruct (fo_all _); discriminate.
  - destruct (auth_status_trace ctx w) as (evs & Hevs & Hno).
    exists evs. rewrite Hauth in Hevs. split; [exact Hevs | exact Hno].
Qed.

(** C4: for an identified caller who is privileged in a private chat and
    whose message splits into command, username and email,
    [command_register] throws the argument error "Invalid username" when the
    username is not 3 to 32 letters, digits or underscores, whatever the
    email is; throws "Invalid email" when the username is of that form and
    the email is not of the form [local@domain.tld]; and throws nothing when
    both are well formed.  The test applied to the username accepts exactly
    the strings of the username pattern. *)
Theorem register_validates_username_then_email :
  forall (ctx : Ctx) (user : TgUser) (ch : TgChat) level d nick schedule w w1
         (cmd username email : string),
    from ctx = Some user -> ctx_chat ctx = Some ch -> type ch = Private ->
    auth_status api config ctx w = (Ok (StatusPrivileged level d nick), w1) ->
    option_map (JsString.split " ") (message_text ctx) = Some [cmd; username; email] ->
    (~ username_pattern username ->
     register ctx schedule w
     = (Some (Throw (CommandArgsError "Invalid username")), w1))
    /\ (username_pattern username -> ~ email_pattern email ->
        register ctx schedule w
        = (Some (Throw (CommandArgsError "Invalid email")), w1))
    /\ (username_pattern username -> email_pattern email ->
        forall e, fst (register ctx schedule w) <> Some (Throw e))
    /\ (forall s, Regex.test username_regex s = true <-> username_pattern s).
Proof.
  intros ctx user ch level d nick schedule w w1 cmd username email
         Hfrom Hchat Htype Hauth Hargs.
  rewrite (@command_register_privileged ctx user ch level d nick schedule w w1
             Hfrom Hchat Htype Hauth), Hargs.
  pose proof (username_test_spec username) as Hu.
  pose proof (email_test_spec email) as He.
  split; [|split; [|split; [|exact username_test_spec]]].
  - intros Hbad. destruct (Regex.test username_regex username); [|reflexivity].
    elim Hbad. apply Hu. reflexivity.
  - intros Hgood Hbad. apply Hu in Hgood. rewrite Hgood. simpl.
    destruct (Regex.test email_regex email); [|reflexivity].
    elim Hbad. apply He. reflexivity.
  - intros Hgood Hgood' e. apply Hu in Hgood. apply He in Hgood'.
    rewrite Hgood, Hgood'. simpl.
    destruct (lookups_and_create user ch username email w1) as [[[|]|err] w2];
      simpl; try discriminate.
    destruct (fo_all _); discriminate.
Qed.

(** C5: for an identified caller who is privileged in a private chat, with
    a well-formed message and a session that holds a token: when the
    directory has a user with the candidate username, [command_register]
    returns normally after the reply "User ... already exists.", having sent
    only the [GetUserFromId] query; when the directory has no such user but
    lists a user for the caller's Telegram id, it returns normally after the
    reply "This telegram account is already connected to user ...", having
    sent only the two queries.  In both cases no mutation was sent and the
    directory is as it was before the command. *)
Theorem register_duplicate_leaves_directory :
  forall (ctx : Ctx) (user : TgUser) (ch : TgChat) level d nick schedule w w1
         (cmd username email : string) tok,
    from ctx = Some user -> ctx_chat ctx = Some ch -> type ch = Private ->
    auth_status api config ctx w = (Ok (StatusPrivileged level d nick), w1) ->
    option_map (JsString.split " ") (message_text ctx) = Some [cmd; username; email] ->
    Regex.test username_regex username = true ->
    Regex.test email_regex email = true ->
    getToken (w_auth w1) = Ok tok ->
    (forall existing_user,
        db_user B username (w_db w1) = Ok existing_user ->
        register ctx schedule w
        = (Some (Ok tt),
           add_trace w1 [GqlSent (GetUserFromId username);
                         Reply (already_exists_text username) true])
        /\ directory_untouched w (snd (register ctx schedule w)))
    /\ (forall err existing_connect others,
          db_user B username (w_db w1) = Throw err ->
          entity_not_found err = true ->
          db_users B (JsString.of_number (user_id user)) (w_db w1)
          = Ok (existing_connect :: others) ->
          register ctx schedule w
          = (Some (Ok tt),
             add_trace w1 [GqlSent (GetUserFromId username);
                           GqlSent (GetUsersFromTelegramId
                                      (JsString.of_number (user_id user)));
                           Reply (already_connected_text existing_connect) true])
          /\ directory_untouched w (snd (register ctx schedule w))).
Proof.
  intros ctx user ch level d nick schedule w w1 cmd username email tok
         Hfrom Hchat Htype Hauth Hargs Huser Hemail Htok.
  assert (Hw1 : directory_untouched w w1).
  { pose proof (auth_status_untouched ctx w) as H. rewrite Hauth in H. exact H. }
  assert (Hreg : register ctx schedule w
                 = match lookups_and_create user ch username email w1 with
                   | (Throw err, w2) => (Some (Ok tt), snd (register_catch err w2))
                   | (Ok false, w2) => (Some (Ok tt), w2)
                   | (Ok true, w2) =>
                       let f := run_tasks api config user username schedule
                                          (start_tasks config user w2) in
                       (match fo_all f with
                        | AllPending => None
                        | _ => Some (Ok tt)
                        end, fo_world f)
                   end).
  { rewrite (@command_register_privileged ctx user ch level d nick schedule w w1
               Hfrom Hchat Htype Hauth), Hargs, Huser, Hemail.
    reflexivity. }
  split.
  - intros existing_user Hfound.
    assert (Heq : register ctx schedule w
                  = (Some (Ok tt),
                     add_trace w1 [GqlSent (GetUserFromId username);
                                   Reply (already_exists_text username) true])).
    { rewrite Hreg. unfold register_lookups_and_create.
      unfold bind at 1. rewrite get_user_by_id_cases.
      rewrite (request_query_logged_in _ _ _ Htok), Hfound.
      unfold bind, reply, emit, ret. cbn [fst snd]. rewrite add_trace_app.
      reflexivity. }
    split; [exact Heq|]. rewrite Heq. cbn [snd].
    apply (directory_untouched_trans Hw1), directory_untouched_add_trace.
    intros req [Hreq | [Hreq | []]]; inversion Hreq; reflexivity.
  - intros err existing_connect others Hmissing Hmarker Husers.
    assert (Heq : register ctx schedule w
                  = (Some (Ok tt),
                     add_trace w1 [GqlSent (GetUserFromId username);
                                   GqlSent (GetUsersFromTelegramId
                                              (JsString.of_number (user_id user)));
                                   Reply (already_connected_text existing_connect)
                                         true])).
    { rewrite Hreg. unfold register_lookups_and_create.
      unfold bind at 1. rewrite get_user_by_id_cases.
      rewrite (request_query_logged_in _ _ _ Htok), Hmissing, Hmarker.
      unfold bind at 1, get_user_by_telegram_id. unfold bind at 1.
      assert (Htok' : getToken (w_auth (add_trace w1 [GqlSent (GetUserFromId username)]))
                      = Ok tok) by exact Htok.
      rewrite (request_query_logged_in _ _ _ Htok').
      change (w_db (add_trace w1 [GqlSent (GetUserFromId username)])) with (w_db w1).
      rewrite Husers.
      unfold bind, reply, emit, ret. cbn [fst snd]. rewrite !add_trace_app.
      reflexivity. }
    split; [exact Heq|]. rewrite Heq. cbn [snd].
    apply (directory_untouched_trans Hw1), directory_untouched_add_trace.
    intros req [Hreq | [Hreq | [Hreq | []]]]; inversion Hreq; reflexivity.
Qed.

End RegisterFacts.

Lemma register_rejects_wrong_argument_count_witness :
  auth_status demo_api demo_config
              (private_ctx "/register alice  alice@example.com") demo_world
  = (Ok (StatusPrivileged 5 (-1002) "B"), queried_world)
  /\ (forall l,
        option_map (JsString.split " ")
                   (message_text (private_ctx "/register alice  alice@example.com"))
        = Some l ->
        List.length l <> 3%nat)
  /\ demo_register "/register alice  alice@example.com" []
     = (Some (Throw (CommandArgsError "Invalid number of arguments")), queried_world).
Proof.
  assert (Hargs : forall l,
             option_map (JsString.split " ")
                        (message_text (private_ctx "/register alice  alice@example.com"))
             = Some l ->
             List.length l <> 3%nat).
  { intros l H. inversion H. discriminate. }
  split; [reflexivity|]. split; [exact Hargs|].
  exact (proj1 (@register_rejects_wrong_argument_count RefDirectory.backend demo_api
                  demo_config "https://auth.example" (fun s => s)
                  (private_ctx "/register alice  alice@example.com") alice
                  {| chat_id := 42; type := Private |} 5 (-1002) "B" []
                  demo_world queried_world
                  eq_refl eq_refl eq_refl eq_refl) Hargs).
Defined.

Lemma register_validates_username_then_email_witness :
  auth_status demo_api demo_config
              (private_ctx "/register al alice@example.com") demo_world
  = (Ok (StatusPrivileged 5 (-1002) "B"), queried_world)
  /\ option_map (JsString.split " ")
                (message_text (private_ctx "/register al alice@example.com"))
     = Some ["/register"; "al"; "alice@example.com"]
  /\ ~ username_pattern "al"
  /\ demo_register "/register al alice@example.com" []
     = (Some (Throw (CommandArgsError "Invalid username")), queried_world).
Proof.
  assert (Hbad : ~ username_pattern "al").
  { intros [[H _] _]. simpl in H. lia. }
  split; [reflexivity|]. split; [reflexivity|]. split; [exact Hbad|].
  exact (proj1 (@register_validates_username_then_email RefDirectory.backend demo_api
                  demo_config "https://auth.example" (fun s => s)
                  (private_ctx "/register al alice@example.com") alice
                  {| chat_id := 42; type := Private |} 5 (-1002) "B" []
                  demo_world queried_world
                  "/register" "al" "alice@example.com"
                  eq_refl eq_refl eq_refl eq_refl eq_refl) Hbad).
Defined.

Lemma register_duplicate_leaves_directory_witness :
  auth_status demo_api demo_config
              (private_ctx "/register alice alice@example.com") alice_world
  = (Ok (StatusPrivileged 5 (-1002) "B"), queried_alice_world)
  /\ Regex.test username_regex "alice" = true
  /\ Regex.test email_regex "alice@example.com" = true
  /\ getToken (w_auth queried_alice_world) = Ok (TokString "jwt")
  /\ db_user RefDirectory.backend "alice" (w_db queried_alice_world)
     = Ok {| up_id := "alice"; up_email := "alice@example.com";
             up_attributes := [{| attr_name := "telegram_id"; attr_value := "7" |}] |}
  /\ command_register demo_api demo_config "https://auth.example" (fun s => s)
                      (private_ctx "/register alice alice@example.com") []
                      alice_world
     = (Some (Ok tt),
        add_trace queried_alice_world
                  [GqlSent (GetUserFromId "alice");
                   Reply "User <b>alice</b> already exists." true]).
Proof.
  split; [reflexivity|]. split; [reflexivity|]. split; [reflexivity|].
  split; [reflexivity|]. split; [reflexivity|].
  exact (proj1 (proj1 (@register_duplicate_leaves_directory RefDirectory.backend
                  demo_api demo_config "https://auth.example" (fun s => s)
                  (private_ctx "/register alice alice@example.com") alice
                  {| chat_id := 42; type := Private |} 5 (-1002) "B" []
                  alice_world queried_alice_world
                  "/register" "alice" "alice@example.com" (TokString "jwt")
                  eq_refl eq_refl eq_refl eq_refl eq_refl eq_refl eq_refl eq_refl)
                  _ eq_refl)).
Defined.

(* ------------------------------------------------------------------ *)
(** ** The group attachment *)

Section FanoutFacts.

Variable B : DirectoryBackend.
Variable api : TelegramApi.
Variable config : TgConfig.
Variable user : TgUser.
Variable username : string.
Implicit Type w : world B.
Implicit Type f : fanout B.

Local Abbreviation resume1 := (resume api config user username).
Local Abbreviation run := (run_tasks api config user username).

Lemma nth_error_update_nth_same {A} (x : A) :
  forall (l : list A) (i : nat) (y : A),
    nth_error l i = Some y -> nth_error (update_nth i x l) i = Some x.
Proof.
  induction l as [|hd tl IH]; intros [|i] y H; simpl in *; try discriminate.
  - reflexivity.
  - eapply IH, H.
Qed.

Lemma nth_error_update_nth_other {A} (x : A) :
  forall (l : list A) (i j : nat),
    i <> j -> nth_error (update_nth i x l) j = nth_error l j.
Proof.
  induction l as [|hd tl IH]; intros [|i] [|j] H; simpl; try reflexivity.
  - now elim H.
  - apply IH. intros ->. now elim H.
Qed.

Lemma add_to_group_trace gid w :
  w_auth (snd (add_to_group username gid w)) = w_auth w
  /\ exists evs, w_trace (snd (add_to_group username gid w)) = (w_trace w ++ evs)%list
                 /\ (forall e, ~ In (ReportError e) evs)
                 /\ (forall tok, getToken (w_auth w) = Ok tok ->
                                 In (GqlSent (AddUserToGroup username gid)) evs).
Proof.
  unfold add_to_group, bind, request_mutation.
  destruct (getToken (w_auth w)) as [tok|e] eqn:Htok.
  - destruct (fst (db_addUserToGroup B username gid (w_db w))) as [[|]|e];
      (split; [reflexivity|]);
      exists [GqlSent (AddUserToGroup username gid)];
      (split; [reflexivity|]);
      (split; [intros e' [H | []]; discriminate H | intros _ _; left; reflexivity]).
  - split; [reflexivity|]. exists []. simpl. rewrite app_nil_r.
    split; [reflexivity|]. split; [intros e' [] | intros tok H; discriminate H].
Qed.

(** One step of one task: only appends to the trace, keeps the session. *)
Lemma resume_task_trace (c : AuthorizedChat) (t : task) w :
  w_auth (snd (resume_task api config user username c t w)) = w_auth w
  /\ exists evs,
      w_trace (snd (resume_task api config user username c t w))
      = (w_trace w ++ evs)%list
      /\ forall e, ~ In (ReportError e) evs.
Proof.
  assert (Hnil : w_auth w = w_auth w
                 /\ exists evs, w_trace w = (w_trace w ++ evs)%list
                                /\ forall e, ~ In (ReportError e) evs).
  { split; [reflexivity|]. exists []. rewrite app_nil_r.
    split; [reflexivity | intros e []]. }
  destruct t as [|[u|e]| | |e]; simpl; try exact Hnil.
  - destruct (tg_getChatMember api (chat c) (user_id user)) as [st|e];
      [|exact Hnil].
    destruct (member_type (member_types config) st <=? 0); [exact Hnil|].
    destruct (ldap_group_id c) as [g|]; [|exact Hnil]. simpl.
    destruct (add_to_group_trace g w) as (Ha & evs & Ht & Hno & _).
    split; [exact Ha|]. exists evs. split; [exact Ht | exact Hno].
  - split; [reflexivity|]. exists [Reply (added_to_group_text username c) true].
    split; [reflexivity|]. intros e [H | []]. discriminate H.
  - destruct (tg_sendMessage api _); exact Hnil.
Qed.

(** Resuming a task appends to the trace and keeps the session. *)
Lemma resume_trace f i :
  w_auth (fo_world (resume1 f i)) = w_auth (fo_world f)
  /\ exists evs, w_trace (fo_world (resume1 f i)) = (w_trace (fo_world f) ++ evs)%list.
Proof.
  assert (Hnil : w_auth (fo_world f) = w_auth (fo_world f)
                 /\ exists evs, w_trace (fo_world f) = (w_trace (fo_world f) ++ evs)%list).
  { split; [reflexivity|]. exists []. rewrite app_nil_r. reflexivity. }
  unfold resume. destruct (nth_error (fo_tasks f) i) as [[c t]|]; [|exact Hnil].
  destruct (is_settled t); [exact Hnil|].
  destruct (resume_task_trace c t (fo_world f)) as (Ha & evs & Ht & _).
  destruct (fo_all f);
    destruct (fst (resume_task api config user username c t (fo_world f)));
    cbn [fo_world]; try (split; [exact Ha | exists evs; exact Ht]).
  split; [exact Ha|].
  unfold register_catch, bind, reply, report_error, emit. cbn [snd fst].
  rewrite add_trace_app. cbn [w_trace add_trace]. rewrite Ht, <- app_assoc.
  eexists. reflexivity.
Qed.

Lemma run_trace schedule :
  forall f,
    w_auth (fo_world (run schedule f)) = w_auth (fo_world f)
    /\ exists evs, w_trace (fo_world (run schedule f))
                   = (w_trace (fo_world f) ++ evs)%list.
Proof.
  induction schedule as [|i rest IH]; intros f.
  - split; [reflexivity|]. exists []. rewrite app_nil_r. reflexivity.
  - destruct (IH (resume1 f i)) as (Ha & evs & Ht).
    destruct (resume_trace f i) as (Ha' & evs' & Ht').
    change (run (i :: rest) f) with (run rest (resume1 f i)).
    split; [congruence|].
    exists (evs' ++ evs)%list. rewrite Ht, Ht', app_assoc. reflexivity.
Qed.

(** Resuming one task leaves the others where they are. *)
Lemma resume_other f i j :
  i <> j -> nth_error (fo_tasks (resume1 f i)) j = nth_error (fo_tasks f) j.
Proof.
  intros Hne. unfold resume.
  destruct (nth_error (fo_tasks f) i) as [[c t]|]; [|reflexivity].
  destruct (is_settled t); [reflexivity|].
  destruct (fo_all f);
    destruct (fst (resume_task api config user username c t (fo_world f)));
    cbn [fo_tasks]; apply nth_error_update_nth_other, Hne.
Qed.

(** A task that still awaits its membership answer issues the
    [AddUserToGroup] mutation as soon as it is resumed, when the caller's
    weight in its chat is positive and the chat has a group; the state of
    the [Promise.all] plays no part. *)
Lemma resume_issues_add f i (c : AuthorizedChat) status g tok :
  nth_error (fo_tasks f) i = Some (c, AwaitMember) ->
  tg_getChatMember api (chat c) (user_id user) = Ok status ->
  0 < member_type (member_types config) status ->
  ldap_group_id c = Some g ->
  getToken (w_auth (fo_world f)) = Ok tok ->
  exists evs, w_trace (fo_world (resume1 f i)) = (w_trace (fo_world f) ++ evs)%list
              /\ In (GqlSent (AddUserToGroup username g)) evs.
Proof.
  intros Hnth Hst Hpos Hg Htok. unfold resume. rewrite Hnth.
  cbn [is_settled resume_task]. rewrite Hst, Hg.
  apply Z.leb_gt in Hpos. rewrite Hpos. cbn [fst snd].
  destruct (add_to_group_trace g (fo_world f)) as (_ & evs & Ht & _ & Hin).
  exists evs. split; [|eapply Hin, Htok].
  destruct (fo_all f); cbn [fo_world]; exact Ht.
Qed.

Lemma run_issues_add (c : AuthorizedChat) status g tok i :
  tg_getChatMember api (chat c) (user_id user) = Ok status ->
  0 < member_type (member_types config) status ->
  ldap_group_id c = Some g ->
  forall schedule f,
    nth_error (fo_tasks f) i = Some (c, AwaitMember) ->
    getToken (w_auth (fo_world f)) = Ok tok ->
    In i schedule ->
    exists evs, w_trace (fo_world (run schedule f)) = (w_trace (fo_world f) ++ evs)%list
                /\ In (GqlSent (AddUserToGroup username g)) evs.
Proof.
  intros Hst Hpos Hg.
  induction schedule as [|j rest IH]; intros f Hnth Htok Hin; [elim Hin|].
  change (run (j :: rest) f) with (run rest (resume1 f j)).
  destruct (Nat.eq_dec j i) as [-> | Hne].
  - destruct (resume_issues_add f i Hnth Hst Hpos Hg Htok) as (evs & Ht & Hev).
    destruct (run_trace rest (resume1 f i)) as (_ & evs' & Ht').
    exists (evs ++ evs')%list. rewrite Ht', Ht, app_assoc.
    split; [reflexivity | apply in_or_app; left; exact Hev].
  - destruct Hin as [Heq | Hin]; [now elim Hne|].
    destruct (resume_trace f j) as (Ha & evs & Ht).
    destruct (IH (resume1 f j)) as (evs' & Ht' & Hev); auto.
    + rewrite resume_other by exact Hne. exact Hnth.
    + rewrite Ha. exact Htok.
    + exists (evs ++ evs')%list. rewrite Ht', Ht, app_assoc.
      split; [reflexivity | apply in_or_app; right; exact Hev].
Qed.

Lemma fulfilled_is_settled f i (c : AuthorizedChat) (t : task) :
  forallb (@is_fulfilled) (fo_tasks f) = true ->
  nth_error (fo_tasks f) i = Some (c, t) -> t = Fulfilled.
Proof.
  intros Hall Hnth. rewrite forallb_forall in Hall.
  specialize (Hall _ (nth_error_In _ _ Hnth)).
  unfold is_fulfilled in Hall. simpl in Hall. destruct t; congruence.
Qed.

(** Resuming a task keeps the [Promise.all] consistent with the tasks. *)
Lemma resume_consistent f i since :
  promise_all_consistent f since ->
  exists evs, w_trace (fo_world (resume1 f i)) = (w_trace (fo_world f) ++ evs)%list
              /\ promise_all_consistent (resume1 f i) (since ++ evs).
Proof.
  intros Hinv.
  assert (Hnil : exists evs, w_trace (fo_world f) = (w_trace (fo_world f) ++ evs)%list
                             /\ promise_all_consistent f (since ++ evs)).
  { exists []. rewrite !app_nil_r. split; [reflexivity | exact Hinv]. }
  unfold resume. destruct (nth_error (fo_tasks f) i) as [[c t]|] eqn:Hnth;
    [|exact Hnil].
  destruct (is_settled t) eqn:Hsettled; [exact Hnil|].
  destruct (resume_task_trace c t (fo_world f)) as (_ & evs & Ht & _).
  unfold promise_all_consistent in Hinv.
  destruct (fo_all f) as [| |e0] eqn:Hall.
  - destruct (fst (resume_task api config user username c t (fo_world f)))
      as [|r| | |e] eqn:Ht';
      try (exists evs; split; [exact Ht|]; unfold promise_all_consistent;
           cbn [fo_all fo_tasks];
           match goal with
           | |- context [forallb ?p ?l] => destruct (forallb p l) eqn:Hfb
           end;
           [reflexivity|];
           intros k c' e' Hk;
           destruct (Nat.eq_dec i k) as [<- | Hne];
           [rewrite (nth_error_update_nth_same _ _ _ Hnth) in Hk; discriminate Hk
           |rewrite nth_error_update_nth_other in Hk by exact Hne;
            exact (Hinv k c' e' Hk)]).
    exists (evs ++ [Reply "LLDAP server had an error. Please contact the administrator." false;
                    ReportError e])%list.
    split.
    + cbn [fo_world]. unfold register_catch, bind, reply, report_error, emit.
      cbn [snd fst]. rewrite add_trace_app. cbn [w_trace add_trace].
      rewrite Ht, <- app_assoc. reflexivity.
    + unfold promise_all_consistent. cbn [fo_all fo_tasks]. split.
      * apply in_or_app. right. apply in_or_app. right. right. left. reflexivity.
      * exists i, c. eapply nth_error_update_nth_same, Hnth.
  - rewrite (fulfilled_is_settled f i Hinv Hnth) in Hsettled. discriminate Hsettled.
  - destruct Hinv as (Hrep & k & c' & Hk).
    assert (Hne : i <> k).
    { intros ->. rewrite Hnth in Hk. inversion Hk; subst. discriminate Hsettled. }
    exists evs.
    destruct (fst (resume_task api config user username c t (fo_world f)));
      (split; [exact Ht|]); unfold promise_all_consistent; cbn [fo_all fo_tasks];
      (split; [apply in_or_app; left; exact Hrep|]);
      exists k, c'; rewrite nth_error_update_nth_other by exact Hne; exact Hk.
Qed.

Lemma run_consistent schedule :
  forall f since,
    promise_all_consistent f since ->
    exists evs, w_trace (fo_world (run schedule f)) = (w_trace (fo_world f) ++ evs)%list
                /\ promise_all_consistent (run schedule f) (since ++ evs).
Proof.
  induction schedule as [|i rest IH]; intros f since Hinv.
  - exists []. rewrite !app_nil_r. split; [reflexivity | exact Hinv].
  - change (run (i :: rest) f) with (run rest (resume1 f i)).
    destruct (resume_consistent f i since Hinv) as (evs & Ht & Hinv').
    destruct (IH _ _ Hinv') as (evs' & Ht' & Hinv'').
    exists (evs ++ evs')%list. rewrite Ht', Ht, !app_assoc.
    split; [reflexivity | exact Hinv''].
Qed.

Lemma start_tasks_nth w i (c : AuthorizedChat) (t : task) :
  nth_error (fo_tasks (start_tasks config user w)) i = Some (c, t) ->
  nth_error (authorized_chats config) i = Some c /\ t = AwaitMember.
Proof.
  cbn [start_tasks fo_tasks]. rewrite nth_error_map.
  destruct (nth_error (authorized_chats config) i); simpl; intros H;
    inversion H; auto.
Qed.

Lemma start_tasks_consistent w :
  promise_all_consistent (start_tasks config user w) [].
Proof.
  unfold promise_all_consistent.
  destruct (fo_all (start_tasks config user w)) eqn:Hall.
  - intros i c e Hnth. apply start_tasks_nth in Hnth as [_ Habs]. discriminate Habs.
  - cbn [start_tasks fo_all fo_tasks] in *.
    destruct (authorized_chats config); [reflexivity | discriminate Hall].
  - cbn [start_tasks fo_all] in Hall.
    destruct (authorized_chats config); discriminate Hall.
Qed.

End FanoutFacts.

(** C1, as the code has it: [map] starts one task per configured chat, in
    configuration order, each issuing its membership query before any task
    goes on; from then on, whatever the order in which the awaited calls
    settle and whatever happens to the other tasks, a task that is resumed
    sends its [AddUserToGroup] mutation when the caller's weight in its chat
    is positive and the chat has a group.  A rejected task always means a
    rejected [Promise.all], and the reason the [Promise.all] was rejected
    with is the reason of a rejected task and was passed to [report_error]
    by the [catch] clause. *)
Theorem group_attachment_tasks_are_independent :
  forall (B : DirectoryBackend) (api : TelegramApi) (config : TgConfig)
         (user : TgUser) (username : string) (w : world B) (tok : js_token)
         (schedule : list nat),
    getToken (w_auth w) = Ok tok ->
    let f := run_tasks api config user username schedule
                       (start_tasks config user w) in
    exists evs,
      w_trace (fo_world f)
      = (w_trace w ++ queries (user_id user) (authorized_chats config) ++ evs)%list
      /\ (forall i c status g,
            nth_error (authorized_chats config) i = Some c ->
            tg_getChatMember api (chat c) (user_id user) = Ok status ->
            0 < member_type (member_types config) status ->
            ldap_group_id c = Some g ->
            In i schedule ->
            In (GqlSent (AddUserToGroup username g)) evs)
      /\ (forall i c e,
            nth_error (fo_tasks f) i = Some (c, Rejected e) ->
            exists e', fo_all f = AllRejected e')
      /\ (forall e,
            fo_all f = AllRejected e ->
            In (ReportError e) evs
            /\ exists i c, nth_error (fo_tasks f) i = Some (c, Rejected e)).
Proof.
  intros B api config user username w tok schedule Htok f.
  destruct (@run_consistent B api config user username schedule
              (start_tasks config user w) [] (start_tasks_consistent config user w))
    as (evs & Ht & Hinv).
  fold f in Ht, Hinv. cbn [app] in Hinv.
  exists evs. split; [|split; [|split]].
  - rewrite Ht. cbn [start_tasks fo_world add_trace w_trace].
    rewrite app_assoc. reflexivity.
  - intros i c status g Hc Hst Hpos Hg Hin.
    destruct (@run_issues_add B api config user username c status g tok i
                Hst Hpos Hg schedule (start_tasks config user w))
      as (evs' & Ht' & Hev); auto.
    + cbn [start_tasks fo_tasks]. rewrite nth_error_map, Hc. reflexivity.
    + fold f in Ht'. rewrite Ht in Ht'. apply app_inv_head in Ht'.
      subst evs'. exact Hev.
  - intros i c e Hnth. unfold promise_all_consistent in Hinv.
    destruct (fo_all f) as [| |e'] eqn:Hall.
    + elim (Hinv i c e Hnth).
    + pose proof (@fulfilled_is_settled B f i c (Rejected e) Hinv Hnth) as Habs.
      discriminate Habs.
    + exists e'. reflexivity.
  - intros e Hall. unfold promise_all_consistent in Hinv. rewrite Hall in Hinv.
    exact Hinv.
Qed.

Lemma group_attachment_tasks_are_independent_witness :
  getToken (w_auth alice_world) = Ok (TokString "jwt")
  /\ exists evs,
      w_trace (fo_world demo_fanout)
      = (w_trace alice_world ++ queries 42 [chat_A; chat_B] ++ evs)%list
      /\ In (GqlSent (AddUserToGroup "alice" 20)) evs.
Proof.
  split; [reflexivity|].
  destruct (@group_attachment_tasks_are_independent RefDirectory.backend demo_api
              demo_config alice "alice" alice_world (TokString "jwt")
              [0; 0; 1; 1; 1]%nat eq_refl)
    as (evs & Ht & Hadd & _).
  exists evs. split; [exact Ht|].
  apply (Hadd 1%nat chat_B Administrator 20); try reflexivity.
  right. right. left. reflexivity.
Defined.

(** C1, counterexample to sequential processing with abort.  Group 10 of
    chat A does not exist, so the attachment for A fails.  Processed one
    after the other with an abort at the first failure, chat B would not even
    be queried; the code has queried B before A's attachment was attempted,
    and after the failure for A was handled it still attaches the user to
    B's group 20. *)
Lemma group_attachment_is_not_aborted :
  w_trace demo_sequential
  = [GetChatMember (-1001) 42;
     GqlSent (AddUserToGroup "alice" 10);
     Reply "LLDAP server had an error. Please contact the administrator." false;
     ReportError (JsError "Entity not found: No such group: 10")]
  /\ w_trace (fo_world demo_fanout)
     = [GetChatMember (-1001) 42;
        GetChatMember (-1002) 42;
        GqlSent (AddUserToGroup "alice" 10);
        Reply "LLDAP server had an error. Please contact the administrator." false;
        ReportError (JsError "Entity not found: No such group: 10");
        GqlSent (AddUserToGroup "alice" 20);
        Reply "User <b>alice</b> has been added to a group because you are in chat <b>B</b>" true]
  /\ map RefDirectory.su_groups (RefDirectory.users (w_db demo_sequential)) = [[]]
  /\ map RefDirectory.su_groups (RefDirectory.users (w_db (fo_world demo_fanout)))
     = [[20]]
  /\ fo_world demo_fanout <> demo_sequential.
Proof.
  assert (Hspec : map RefDirectory.su_groups
                      (RefDirectory.users (w_db demo_sequential)) = [[]])
    by reflexivity.
  assert (Hcode : map RefDirectory.su_groups
                      (RefDirectory.users (w_db (fo_world demo_fanout))) = [[20]])
    by reflexivity.
  split; [reflexivity|]. split; [reflexivity|].
  split; [exact Hspec|]. split; [exact Hcode|].
  intros Heq. rewrite Heq, Hspec in Hcode. discriminate Hcode.
Qed.

(** C8: against the reference directory, when [create_user] returns, it
    has sent one [CreateUser] mutation carrying the three arguments, and a
    [get_user_by_id] for the same identifier made next returns the user with
    that identifier, that email, and the external identity as its
    [telegram_id]. *)
Theorem create_user_then_get_user_by_id :
  forall (externalId id email uuid : string) (w w' : world RefDirectory.backend),
    create_user externalId id email w = (Ok uuid, w') ->
    w_trace w' = (w_trace w ++ [GqlSent (CreateUser externalId id email)])%list
    /\ fst (get_user_by_id id w')
       = Ok (Some {| du_id := id;
                     du_telegram_id := Some externalId;
                     du_email := email |}).
Proof.
  intros externalId id email uuid w w' Hcreate.
  unfold create_user, request_mutation in Hcreate.
  destruct (getToken (w_auth w)) as [tok|e] eqn:Htok; [|discriminate Hcreate].
  cbn [db_createUser RefDirectory.backend] in Hcreate.
  unfold RefDirectory.createUser in Hcreate.
  destruct (existsb (RefDirectory.has_id id) (RefDirectory.users (w_db w))) eqn:Hex;
    [discriminate Hcreate|].
  cbn [fst snd] in Hcreate. inversion Hcreate as [[Huuid Hw']]. clear Hcreate.
  split; [reflexivity|].
  rewrite get_user_by_id_cases.
  rewrite (@request_query_logged_in RefDirectory.backend _ _ _ _ tok)
    by exact Htok.
  cbn [db_user RefDirectory.backend w_db]. unfold RefDirectory.user.
  cbn [RefDirectory.users].
  assert (Hfind : forall l u,
             existsb (RefDirectory.has_id id) l = false ->
             RefDirectory.has_id id u = true ->
             find (RefDirectory.has_id id) (l ++ [u]) = Some u).
  { induction l as [|x l IH]; simpl; intros u Hl Hu.
    - rewrite Hu. reflexivity.
    - apply orb_false_iff in Hl as [Hx Hl]. rewrite Hx. apply IH; assumption. }
  rewrite Hfind; [reflexivity | exact Hex |].
  unfold RefDirectory.has_id. apply String.eqb_refl.
Qed.

Lemma create_user_then_get_user_by_id_witness :
  create_user "42" "bob" "bob@example.com" demo_world = (Ok "uuid-0", bob_world)
  /\ fst (get_user_by_id "bob" bob_world)
     = Ok (Some {| du_id := "bob"; du_telegram_id := Some "42";
                   du_email := "bob@example.com" |}).
Proof.
  split; [reflexivity|].
  exact (proj2 (@create_user_then_get_user_by_id "42" "bob" "bob@example.com"
                  "uuid-0" demo_world bob_world eq_refl)).
Defined.

(* ================================================================== *)
(** * Further properties *)

(** ** The credential session, continued *)







(* ------------------------------------------------------------------ *)
(** ** The directory client, continued *)

(** X3: without a token nothing reaches the backend: each of the four
    client operations throws "Not logged in" and leaves the world (session,
    directory, record of calls) as it was.  [get_user_by_id] does not take
    this error for "not found". *)
Theorem client_sends_nothing_without_token :
  forall (B : DirectoryBackend) (w : world B)
         (user_id telegram_id email : string) (group_id : Z),
    token (w_auth w) = TokNull ->
    get_user_by_id user_id w = (Throw (JsError "Not logged in"), w)
    /\ get_user_by_telegram_id telegram_id w = (Throw (JsError "Not logged in"), w)
    /\ create_user telegram_id user_id email w = (Throw (JsError "Not logged in"), w)
    /\ add_to_group user_id group_id w = (Throw (JsError "Not logged in"), w).
Proof.
  intros B w user_id telegram_id email group_id Htok.
  rewrite get_user_by_id_cases.
  unfold get_user_by_telegram_id, create_user, add_to_group, bind,
    request_query, request_mutation, getToken.
  rewrite Htok. repeat split; reflexivity.
Qed.

Lemma client_sends_nothing_without_token_witness :
  token (w_auth logged_out_world) = TokNull
  /\ create_user "42" "bob" "bob@example.com" logged_out_world
     = (Throw (JsError "Not logged in"), logged_out_world).
Proof.
  split; [reflexivity|].
  exact (proj1 (proj2 (proj2
           (@client_sends_nothing_without_token RefDirectory.backend
              logged_out_world "bob" "42" "bob@example.com" 0 eq_refl)))).
Defined.

(** X4: with a token held, [get_user_by_telegram_id] sends one
    [GetUsersFromTelegramId] query and returns the first id of the answer,
    or "none" for an empty answer; a failed request is rethrown as it is,
    also when its message carries the "Entity not found" marker that
    [get_user_by_id] would turn into "none". *)
Theorem get_user_by_telegram_id_first_or_none :
  forall (B : DirectoryBackend) (w : world B) (telegram_id : string) (tok : js_token),
    getToken (w_auth w) = Ok tok ->
    snd (get_user_by_telegram_id telegram_id w)
    = add_trace w [GqlSent (GetUsersFromTelegramId telegram_id)]
    /\ (forall users,
          db_users B telegram_id (w_db w) = Ok users ->
          fst (get_user_by_telegram_id telegram_id w) = Ok (hd_error users))
    /\ (forall err,
          db_users B telegram_id (w_db w) = Throw err ->
          fst (get_user_by_telegram_id telegram_id w) = Throw err).
Proof.
  intros B w telegram_id tok Htok.
  unfold get_user_by_telegram_id, bind.
  rewrite (@request_query_logged_in B _ _ _ w tok Htok).
  destruct (db_users B telegram_id (w_db w)) as [[|first others]|err];
    repeat split; intros x Hx; inversion Hx; reflexivity.
Qed.

Lemma get_user_by_telegram_id_first_or_none_witness :
  getToken (w_auth alice_world) = Ok (TokString "jwt")
  /\ db_users RefDirectory.backend "7" (w_db alice_world) = Ok ["alice"]
  /\ fst (get_user_by_telegram_id "7" alice_world) = Ok (Some "alice").
Proof.
  split; [reflexivity|]. split; [reflexivity|].
  exact (proj1 (proj2 (@get_user_by_telegram_id_first_or_none RefDirectory.backend
                         alice_world "7" (TokString "jwt") eq_refl))
               ["alice"] eq_refl).
Defined.

(* ------------------------------------------------------------------ *)
(** ** Privilege resolution, continued *)

Section AuthStatusMore.

Variable B : DirectoryBackend.
Variable api : TelegramApi.
Variable config : TgConfig.
Implicit Type w : world B.

Lemma find_chat_none (cid : Z) (chats : list AuthorizedChat) :
  (forall c, In c chats -> chat c <> cid) ->
  find (fun x => chat x =? cid) chats = None.
Proof.
  induction chats as [|c rest IH]; intros H; [reflexivity|]. simpl.
  destruct (chat c =? cid) eqn:E.
  - apply Z.eqb_eq in E. elim (H c (or_introl eq_refl) E).
  - apply IH. intros c' Hc'. apply H. right. exact Hc'.
Qed.

(** X5: [auth_status] answers "none" without asking the Bot API anything
    when the update has no sender or no chat, when the chat is a channel,
    and when it is a group or supergroup whose id is not among the
    configured chats. *)
Theorem auth_status_none_without_query :
  forall (ctx : Ctx) w,
    (from ctx = None
     \/ ctx_chat ctx = None
     \/ exists ch,
         ctx_chat ctx = Some ch
         /\ (type ch = Channel
             \/ (type ch <> Private
                 /\ forall c, In c (authorized_chats config) -> chat c <> chat_id ch))) ->
    auth_status api config ctx w = (Ok StatusNone, w).
Proof.
  intros ctx w H. unfold auth_status.
  destruct (from ctx) as [user|]; [|reflexivity].
  destruct H as [H | [H | (ch & Hch & H)]]; [discriminate H | rewrite H; reflexivity |].
  rewrite Hch. destruct H as [-> | [Hty Hnot]]; [reflexivity|].
  destruct (type ch); try reflexivity; try (now elim Hty);
    rewrite (@find_chat_none (chat_id ch) _ Hnot); reflexivity.
Qed.

Lemma max_over_chats_failure (user : Z) (c : AuthorizedChat) (e : exn)
      (post : list AuthorizedChat) :
  tg_getChatMember api (chat c) user = Throw e ->
  forall pre acc w,
    (forall c', In c' pre -> exists st, tg_getChatMember api (chat c') user = Ok st) ->
    max_over_chats api config (pre ++ c :: post) user acc w
    = (Throw e, add_trace w (queries user (pre ++ [c]))).
Proof.
  intros Hc. induction pre as [|c0 pre IH]; intros [[m d] nick] w Hpre.
  - cbn [app max_over_chats]. unfold bind, getChatMember. rewrite Hc. reflexivity.
  - destruct (Hpre c0 (or_introl eq_refl)) as [st Hst].
    assert (Hpre' : forall c', In c' pre ->
                      exists st', tg_getChatMember api (chat c') user = Ok st')
      by (intros c' Hc'; apply Hpre; right; exact Hc').
    change ((c0 :: pre) ++ c :: post)%list with (c0 :: (pre ++ c :: post))%list.
    cbn [max_over_chats]. unfold bind at 1, getChatMember at 1. rewrite Hst.
    destruct (member_type (member_types config) st >? m);
      rewrite IH by exact Hpre'; rewrite add_trace_app; reflexivity.
Qed.

(** X6: in a private chat a failing membership query ends the resolution:
    the error of the first configured chat whose query fails is thrown as it
    is, the chats before it and that chat have been queried, in order, and
    the chats after it have not. *)
Theorem auth_status_private_query_failure :
  forall (ctx : Ctx) (user : TgUser) (ch : TgChat) w
         (pre post : list AuthorizedChat) (c : AuthorizedChat) (e : exn),
    from ctx = Some user -> ctx_chat ctx = Some ch -> type ch = Private ->
    authorized_chats config = (pre ++ c :: post)%list ->
    (forall c', In c' pre ->
                exists st, tg_getChatMember api (chat c') (user_id user) = Ok st) ->
    tg_getChatMember api (chat c) (user_id user) = Throw e ->
    auth_status api config ctx w
    = (Throw e, add_trace w (queries (user_id user) (pre ++ [c]))).
Proof.
  intros ctx user ch w pre post c e Hfrom Hchat Htype Hsplit Hpre Hc.
  unfold auth_status. rewrite Hfrom, Hchat, Htype, Hsplit. unfold bind.
  rewrite (max_over_chats_failure (user_id user) c post Hc pre _ w Hpre).
  reflexivity.
Qed.

(** X7: whatever the context and whatever the Bot API answers,
    [auth_status] only issues [getChatMember] calls for the sender of the
    update: it sends no GraphQL request, no reply and no report, and leaves
    the session and the directory as they are. *)
Theorem auth_status_only_queries_membership :
  forall (ctx : Ctx) w,
    exists evs,
      snd (auth_status api config ctx w) = add_trace w evs
      /\ forall ev, In ev evs ->
                    exists cid user,
                      from ctx = Some user /\ ev = GetChatMember cid (user_id user).
Proof.
  intros ctx w.
  assert (Hnil : forall res : AuthStatus,
             exists evs,
               snd (ret (B:=B) res w) = add_trace w evs
               /\ forall ev, In ev evs ->
                             exists cid user,
                               from ctx = Some user
                               /\ ev = GetChatMember cid (user_id user)).
  { intros res. exists []. unfold ret. rewrite add_trace_nil.
    split; [reflexivity | intros ev []]. }
  unfold auth_status.
  destruct (from ctx) as [user|]; [|apply Hnil].
  destruct (ctx_chat ctx) as [ch|]; [|apply Hnil].
  assert (Hgroup : forall good_chat : AuthorizedChat,
             exists evs,
               snd (bind (getChatMember api (chat_id ch) (user_id user))
                         (fun member_info =>
                            ret (StatusPrivileged
                                   (member_type (member_types config) member_info)
                                   (chat_id ch) (nickname good_chat))) w)
               = add_trace w evs
               /\ forall ev, In ev evs ->
                             exists cid user0,
                               Some user = Some user0
                               /\ ev = GetChatMember cid (user_id user0)).
  { intros good_chat. exists [GetChatMember (chat_id ch) (user_id user)]. split.
    - unfold bind, getChatMember, ret.
      destruct (tg_getChatMember api (chat_id ch) (user_id user)); reflexivity.
    - intros ev [<- | []]. eauto. }
  destruct (type ch).
  - unfold bind.
    destruct (@max_over_chats_trace B api config (user_id user)
                (authorized_chats config) (-1, -1, "") w) as [n Hn].
    exists (queries (user_id user) (firstn n (authorized_chats config))). split.
    + destruct (max_over_chats _ _ _ _ _ w) as [[[[m d] nick]|e] w'];
        simpl in Hn; subst w'; [destruct (m >? 0)|]; reflexivity.
    + intros ev Hin. unfold queries in Hin. apply in_map_iff in Hin.
      destruct Hin as (c & <- & _). eauto.
  - destruct (find _ _); [apply Hgroup | apply Hnil].
  - destruct (find _ _); [apply Hgroup | apply Hnil].
  - apply Hnil.
Qed.

Lemma max_over_chats_nonpositive (user : Z) :
  forall chats acc w,
    fst (fst acc) <= 0 ->
    (forall c st, In c chats ->
                  tg_getChatMember api (chat c) user = Ok st ->
                  member_type (member_types config) st <= 0) ->
    match fst (max_over_chats api config chats user acc w) with
    | Ok (m', _, _) => m' <= 0
    | Throw _ => True
    end.
Proof.
  induction chats as [|c rest IH]; intros [[m d] nick] w Hm Hw.
  - exact Hm.
  - cbn [max_over_chats]. unfold bind at 1, getChatMember at 1.
    destruct (tg_getChatMember api (chat c) user) as [st|e] eqn:Hst; [|exact I].
    assert (Hrest : forall c' st', In c' rest ->
                      tg_getChatMember api (chat c') user = Ok st' ->
                      member_type (member_types config) st' <= 0)
      by (intros c' st' Hc'; apply Hw; right; exact Hc').
    destruct (member_type (member_types config) st >? m); apply IH; auto.
    exact (Hw c st (or_introl eq_refl) Hst).
Qed.

Lemma auth_status_private_nonpositive (ctx : Ctx) (user : TgUser) (ch : TgChat) w :
  from ctx = Some user -> ctx_chat ctx = Some ch -> type ch = Private ->
  (forall c st, In c (authorized_chats config) ->
                tg_getChatMember api (chat c) (user_id user) = Ok st ->
                member_type (member_types config) st <= 0) ->
  forall level d nick,
    fst (auth_status api config ctx w) <> Ok (StatusPrivileged level d nick).
Proof.
  intros Hfrom Hchat Htype Hw level d nick.
  unfold auth_status. rewrite Hfrom, Hchat, Htype. unfold bind.
  pose proof (max_over_chats_nonpositive (user_id user) (authorized_chats config)
                (-1, -1, "") w ltac:(simpl; lia) Hw) as H.
  destruct (max_over_chats _ _ _ _ _ w) as [[[[m d'] nick']|e] w']; simpl in *.
  - destruct (m >? 0) eqn:E; [apply Z.gtb_lt in E; lia | discriminate].
  - discriminate.
Qed.

(** X8: [command_mystatus] in a configured group or supergroup tells the
    sender "You are privileged with level N in chat <b>nickname</b>" where N
    is the weight of the sender's membership state, whatever its sign: a
    sender whose state weighs -1 is told to be privileged with level -1.
    The weight is a safe integer, so that N is its plain decimal text. *)
Theorem mystatus_in_group_reports_any_weight :
  forall (ctx : Ctx) (user : TgUser) (ch : TgChat) (good_chat : AuthorizedChat)
         (status : member_status) w,
    from ctx = Some user -> ctx_chat ctx = Some ch ->
    type ch = Group \/ type ch = Supergroup ->
    find (fun x => chat x =? chat_id ch) (authorized_chats config) = Some good_chat ->
    tg_getChatMember api (chat_id ch) (user_id user) = Ok status ->
    is_safe_integer (member_type (member_types config) status) ->
    command_mystatus api config ctx w
    = (Ok tt,
       add_trace w
         [GetChatMember (chat_id ch) (user_id user);
          Reply ("You are privileged with level "
                 ++ JsString.of_number (member_type (member_types config) status)
                 ++ " in chat <b>" ++ nickname good_chat ++ "</b>") true]).
Proof.
  intros ctx user ch good_chat status w Hfrom Hchat Htype Hfind Hst _.
  unfold command_mystatus, auth_status. rewrite Hfrom, Hchat.
  destruct Htype as [-> | ->]; rewrite Hfind;
    unfold bind, getChatMember, ret, reply, emit; rewrite Hst;
    rewrite add_trace_app; reflexivity.
Qed.

End AuthStatusMore.

Lemma auth_status_none_without_query_witness :
  auth_status demo_api demo_config (group_ctx (-5)) demo_world
  = (Ok StatusNone, demo_world).
Proof.
  apply auth_status_none_without_query. right. right.
  exists {| chat_id := -5; type := Supergroup |}. split; [reflexivity|].
  right. split; [discriminate|].
  intros c [<- | [<- | []]]; discriminate.
Defined.

Lemma auth_status_private_query_failure_witness :
  (forall c', In c' [chat_A] ->
              exists st, tg_getChatMember flaky_api (chat c') (user_id alice) = Ok st)
  /\ tg_getChatMember flaky_api (chat chat_B) (user_id alice)
     = Throw (JsError "Bad Request: chat not found")
  /\ auth_status flaky_api demo_config (private_ctx "/mystatus") demo_world
     = (Throw (JsError "Bad Request: chat not found"), queried_world).
Proof.
  assert (H : forall c', In c' [chat_A] ->
                exists st, tg_getChatMember flaky_api (chat c') (user_id alice) = Ok st).
  { intros c' [<- | []]. exists Member. reflexivity. }
  split; [exact H|]. split; [reflexivity|].
  exact (@auth_status_private_query_failure RefDirectory.backend flaky_api demo_config
           (private_ctx "/mystatus") alice {| chat_id := 42; type := Private |}
           demo_world [chat_A] [] chat_B (JsError "Bad Request: chat not found")
           eq_refl eq_refl eq_refl eq_refl H eq_refl).
Defined.

Lemma mystatus_in_group_reports_any_weight_witness :
  find (fun x => chat x =? -1001) (authorized_chats demo_config) = Some chat_A
  /\ tg_getChatMember left_api (-1001) 42 = Ok Left
  /\ is_safe_integer (member_type (member_types demo_config) Left)
  /\ command_mystatus left_api demo_config (group_ctx (-1001)) demo_world
     = (Ok tt,
        add_trace demo_world
          [GetChatMember (-1001) 42;
           Reply "You are privileged with level -1 in chat <b>A</b>" true]).
Proof.
  assert (Hsafe : is_safe_integer (member_type (member_types demo_config) Left))
    by (unfold is_safe_integer; simpl; lia).
  split; [reflexivity|]. split; [reflexivity|]. split; [exact Hsafe|].
  exact (@mystatus_in_group_reports_any_weight RefDirectory.backend left_api
           demo_config (group_ctx (-1001)) alice
           {| chat_id := -1001; type := Supergroup |} chat_A Left demo_world
           eq_refl eq_refl (or_intror eq_refl) eq_refl eq_refl Hsafe).
Defined.

(* ------------------------------------------------------------------ *)
(** ** The registration command, continued *)

Section RegisterMore.

Variable B : DirectoryBackend.
Variable api : TelegramApi.
Variable config : TgConfig.
Variable login_url : string.
Variable escapeHtml : string -> string.
Implicit Type w : world B.

Local Abbreviation register := (command_register api config login_url escapeHtml).
Local Abbreviation dispatch := (dispatch_register api config login_url escapeHtml).
Local Abbreviation lookups_and_create :=
  (register_lookups_and_create (B:=B) login_url escapeHtml).

(** X9: the first two gates of [command_register].  Without a sender it
    only replies "You are not identified as a telegram user".  With a sender
    but outside a private chat it throws the argument error "Use this
    command in a private chat." before anything is sent: no membership
    query is made, so the answer does not depend on the sender's privilege
    or on the text of the message. *)
Theorem register_requires_sender_and_private_chat :
  forall (ctx : Ctx) (schedule : list nat) w,
    (from ctx = None ->
     register ctx schedule w
     = (Some (tg_sendMessage api "You are not identified as a telegram user"),
        add_trace w [Reply "You are not identified as a telegram user" false]))
    /\ (forall user,
          from ctx = Some user ->
          (forall ch, ctx_chat ctx = Some ch -> type ch <> Private) ->
          register ctx schedule w
          = (Some (Throw (CommandArgsError "Use this command in a private chat.")), w)).
Proof.
  intros ctx schedule w. unfold command_register. split.
  - intros ->. reflexivity.
  - intros user -> Hch. destruct (ctx_chat ctx) as [[cid ty]|]; [|reflexivity].
    specialize (Hch _ eq_refl). simpl in Hch.
    destruct ty; try reflexivity. now elim Hch.
Qed.

(** X10: a sender whose membership state weighs 0 or less in every
    configured chat cannot make [command_register] touch the directory:
    whatever the context, the text and the schedule, the command ends at
    once, and what it has sent contains no GraphQL request. *)
Theorem register_without_privilege_sends_no_request :
  forall (ctx : Ctx) (user : TgUser) (schedule : list nat) w,
    from ctx = Some user ->
    (forall c st, In c (authorized_chats config) ->
                  tg_getChatMember api (chat c) (user_id user) = Ok st ->
                  member_type (member_types config) st <= 0) ->
    exists r evs,
      register ctx schedule w = (Some r, add_trace w evs)
      /\ forall req, ~ In (GqlSent req) evs.
Proof.
  intros ctx user schedule w Hfrom Hweights.
  unfold command_register. rewrite Hfrom.
  destruct (ctx_chat ctx) as [[cid ty]|] eqn:Hchat;
    [|eexists; exists []; rewrite add_trace_nil;
      split; [reflexivity | intros req []]].
  destruct ty;
    try (eexists; exists []; rewrite add_trace_nil;
         split; [reflexivity | intros req []]).
  destruct (@auth_status_trace B api config ctx w) as (evs & Hevs & Hno).
  pose proof (@auth_status_private_nonpositive B api config ctx user
                {| chat_id := cid; type := Private |} w Hfrom Hchat eq_refl Hweights)
    as Hnot.
  destruct (auth_status api config ctx w) as [[[level d nick|]|e] w1];
    cbn [fst snd] in Hevs, Hnot; subst w1.
  - elim (Hnot level d nick eq_refl).
  - eexists.
    exists (evs ++ [Reply "You are not privileged to use this command" false])%list.
    unfold reply_awaited, bind, emit. cbn [fst snd]. rewrite add_trace_app.
    split; [reflexivity|].
    intros req Hin. apply in_app_or in Hin. destruct Hin as [Hin | [Hin | []]];
      [elim (Hno req Hin) | discriminate Hin].
  - eexists. exists evs. split; [reflexivity | exact Hno].
Qed.

(** X11: the wrapper installed around the handler never lets an argument
    error escape: a [CommandArgsError] of [command_register] becomes one
    reply made of its message and the usage text, and the wrapper returns;
    every other outcome of the handler (a normal return, a handler still
    suspended, any other thrown error) is the outcome of the wrapper, with
    nothing sent in addition. *)
Theorem dispatch_turns_argument_errors_into_usage :
  forall (ctx : Ctx) (schedule : list nat) w,
    (forall msg w',
        register ctx schedule w = (Some (Throw (CommandArgsError msg)), w') ->
        dispatch ctx schedule w
        = (Some (Ok tt),
           add_trace w' [Reply (msg ++ newline ++ newline ++ "Usage: /register "
                                ++ register_help_text) false]))
    /\ ((forall msg,
           fst (register ctx schedule w) <> Some (Throw (CommandArgsError msg))) ->
        dispatch ctx schedule w = register ctx schedule w)
    /\ (forall msg,
          fst (dispatch ctx schedule w) <> Some (Throw (CommandArgsError msg))).
Proof.
  intros ctx schedule w. unfold dispatch_register. split; [|split].
  - intros msg w' ->. reflexivity.
  - intros Hno.
    destruct (register ctx schedule w) as [[[u|e]|] w']; try reflexivity.
    destruct e as [m|m|p]; try reflexivity.
    elim (Hno m). reflexivity.
  - intros msg.
    destruct (register ctx schedule w) as [[[u|e]|] w']; cbn [fst];
      try discriminate.
    destruct e as [m|m|p]; cbn [instanceof_CommandArgsError fst]; discriminate.
Qed.

(** Past the gates and the validation of the arguments the command is the
    [try] block. *)
Lemma command_register_validated (ctx : Ctx) (user : TgUser) (ch : TgChat)
      level d nick schedule w w1 (cmd username email : string) :
  from ctx = Some user -> ctx_chat ctx = Some ch -> type ch = Private ->
  auth_status api config ctx w = (Ok (StatusPrivileged level d nick), w1) ->
  option_map (JsString.split " ") (message_text ctx) = Some [cmd; username; email] ->
  Regex.test username_regex username = true ->
  Regex.test email_regex email = true ->
  register ctx schedule w
  = match lookups_and_create user ch username email w1 with
    | (Throw err, w2) => (Some (Ok tt), snd (register_catch err w2))
    | (Ok false, w2) => (Some (Ok tt), w2)
    | (Ok true, w2) =>
        let f := run_tasks api config user username schedule
                           (start_tasks config user w2) in
        (match fo_all f with
         | AllPending => None
         | _ => Some (Ok tt)
         end, fo_world f)
    end.
Proof.
  intros Hfrom Hchat Htype Hauth Hargs Huser Hemail.
  rewrite (@command_register_privileged B api config login_url escapeHtml
             ctx user ch level d nick schedule w w1 Hfrom Hchat Htype Hauth),
    Hargs, Huser, Hemail.
  reflexivity.
Qed.

Lemma register_catch_trace (err : exn) w :
  register_catch err w
  = (Ok tt, add_trace w [Reply generic_error_text false; ReportError err]).
Proof.
  unfold register_catch, bind, reply, report_error, emit.
  rewrite add_trace_app. reflexivity.
Qed.

(** X12: a failing lookup is caught by the command: for a privileged
    sender with well-formed arguments, [command_register] returns normally
    after the generic reply and a report of the error, and no mutation is
    sent, (a) with no request at all when the session holds no token, (b)
    after the [GetUserFromId] query when that query fails with an error that
    does not carry the "Entity not found" marker, (c) after both queries when
    the lookup by Telegram id fails, whatever its error. *)
Theorem register_reports_lookup_failure :
  forall (ctx : Ctx) (user : TgUser) (ch : TgChat) level d nick schedule w w1
         (cmd username email : string),
    from ctx = Some user -> ctx_chat ctx = Some ch -> type ch = Private ->
    auth_status api config ctx w = (Ok (StatusPrivileged level d nick), w1) ->
    option_map (JsString.split " ") (message_text ctx) = Some [cmd; username; email] ->
    Regex.test username_regex username = true ->
    Regex.test email_regex email = true ->
    (token (w_auth w1) = TokNull ->
     register ctx schedule w
     = (Some (Ok tt),
        add_trace w1 [Reply generic_error_text false;
                      ReportError (JsError "Not logged in")]))
    /\ (forall tok err,
          getToken (w_auth w1) = Ok tok ->
          db_user B username (w_db w1) = Throw err ->
          entity_not_found err = false ->
          register ctx schedule w
          = (Some (Ok tt),
             add_trace w1 [GqlSent (GetUserFromId username);
                           Reply generic_error_text false;
                           ReportError err]))
    /\ (forall tok err err',
          getToken (w_auth w1) = Ok tok ->
          db_user B username (w_db w1) = Throw err ->
          entity_not_found err = true ->
          db_users B (JsString.of_number (user_id user)) (w_db w1) = Throw err' ->
          register ctx schedule w
          = (Some (Ok tt),
             add_trace w1 [GqlSent (GetUserFromId username);
                           GqlSent (GetUsersFromTelegramId
                                      (JsString.of_number (user_id user)));
                           Reply generic_error_text false;
                           ReportError err'])).
Proof.
  intros ctx user ch level d nick schedule w w1 cmd username email
         Hfrom Hchat Htype Hauth Hargs Huser Hemail.
  pose proof (@command_register_validated ctx user ch level d nick schedule w w1
                cmd username email Hfrom Hchat Htype Hauth Hargs Huser Hemail)
    as Hreg.
  split; [|split].
  - intros Htok. rewrite Hreg.
    unfold register_lookups_and_create. unfold bind at 1.
    rewrite get_user_by_id_cases.
    unfold request_query, getToken. rewrite Htok.
    change (entity_not_found (JsError "Not logged in")) with false.
    cbn iota. rewrite register_catch_trace. reflexivity.
  - intros tok err Htok Herr Hmark. rewrite Hreg.
    unfold register_lookups_and_create. unfold bind at 1.
    rewrite get_user_by_id_cases.
    rewrite (request_query_logged_in _ _ _ Htok), Herr, Hmark.
    rewrite register_catch_trace, add_trace_app. reflexivity.
  - intros tok err err' Htok Herr Hmark Herr'. rewrite Hreg.
    unfold register_lookups_and_create. unfold bind at 1.
    rewrite get_user_by_id_cases.
    rewrite (request_query_logged_in _ _ _ Htok), Herr, Hmark.
    unfold bind at 1, get_user_by_telegram_id. unfold bind at 1.
    assert (Htok' : getToken (w_auth (add_trace w1 [GqlSent (GetUserFromId username)]))
                    = Ok tok) by exact Htok.
    rewrite (request_query_logged_in _ _ _ Htok').
    change (w_db (add_trace w1 [GqlSent (GetUserFromId username)])) with (w_db w1).
    rewrite Herr'. rewrite register_catch_trace, !add_trace_app. reflexivity.
Qed.

(** The [try] block up to the fan-out, case by case, for a session that
    holds a token. *)
Lemma lookups_and_create_cases (user : TgUser) (ch : TgChat)
      (username email : string) w tok :
  getToken (w_auth w) = Ok tok ->
  lookups_and_create user ch username email w
  = match db_user B username (w_db w) with
    | Ok _ =>
        (Ok false,
         add_trace w [GqlSent (GetUserFromId username);
                      Reply (already_exists_text username) true])
    | Throw err =>
        if entity_not_found err then
          match db_users B (JsString.of_number (user_id user)) (w_db w) with
          | Ok (connected :: _) =>
              (Ok false,
               add_trace w [GqlSent (GetUserFromId username);
                            GqlSent (GetUsersFromTelegramId
                                       (JsString.of_number (user_id user)));
                            Reply (already_connected_text connected) true])
          | Ok [] =>
              match db_createUser B (JsString.of_number (user_id user))
                                  username email (w_db w) with
              | (Ok _, db') =>
                  (Ok true,
                   {| w_auth := w_auth w; w_db := db';
                      w_trace :=
                        (w_trace w
                         ++ [GqlSent (GetUserFromId username);
                             GqlSent (GetUsersFromTelegramId
                                        (JsString.of_number (user_id user)));
                             GqlSent (CreateUser (JsString.of_number (user_id user))
                                                 username email);
                             Reply (registered_text login_url username) true;
                             ReportMessage
                               (registered_report escapeHtml username user ch)])%list |})
              | (Throw err', db') =>
                  (Throw err',
                   {| w_auth := w_auth w; w_db := db';
                      w_trace :=
                        (w_trace w
                         ++ [GqlSent (GetUserFromId username);
                             GqlSent (GetUsersFromTelegramId
                                        (JsString.of_number (user_id user)));
                             GqlSent (CreateUser (JsString.of_number (user_id user))
                                                 username email)])%list |})
              end
          | Throw err' =>
              (Throw err',
               add_trace w [GqlSent (GetUserFromId username);
                            GqlSent (GetUsersFromTelegramId
                                       (JsString.of_number (user_id user)))])
          end
        else (Throw err, add_trace w [GqlSent (GetUserFromId username)])
    end.
Proof.
  intros Htok.
  unfold register_lookups_and_create, get_user_by_id, get_user_by_telegram_id,
    create_user, try_catch, bind, request_query, request_mutation,
    reply, report_message, emit, ret, throw.
  rewrite Htok.
  destruct (db_user B username (w_db w)) as [u|err].
  - unfold add_trace. cbn [w_auth w_db w_trace]. rewrite <- app_assoc. reflexivity.
  - destruct (entity_not_found err); [|reflexivity].
    cbn [w_auth w_db add_trace]. rewrite Htok.
    destruct (db_users B (JsString.of_number (user_id user)) (w_db w))
      as [[|connected others]|err'].
    + cbn [w_auth w_db add_trace w_trace]. rewrite Htok.
      destruct (db_createUser B (JsString.of_number (user_id user)) username email
                              (w_db w)) as [[uuid|err'] db'];
        unfold add_trace; cbn [fst snd w_auth w_db w_trace];
        rewrite <- ?app_assoc; reflexivity.
    + unfold add_trace. cbn [w_auth w_db w_trace].
      rewrite <- !app_assoc. reflexivity.
    + unfold add_trace. cbn [w_auth w_db w_trace].
      rewrite <- !app_assoc. reflexivity.
Qed.

(** X13: a rejected creation is caught as well: when both lookups find
    nothing and the [CreateUser] mutation fails (for instance because the
    identifier was taken in the meantime), [command_register] returns
    normally after the generic reply and a report of the error; the caller
    is not told that the user was registered, the administrators get no
    registration report, and the group attachment is not started (no
    membership query, no [AddUserToGroup]). *)
Theorem register_reports_creation_failure :
  forall (ctx : Ctx) (user : TgUser) (ch : TgChat) level d nick schedule w w1
         (cmd username email : string) tok err err' db',
    from ctx = Some user -> ctx_chat ctx = Some ch -> type ch = Private ->
    auth_status api config ctx w = (Ok (StatusPrivileged level d nick), w1) ->
    option_map (JsString.split " ") (message_text ctx) = Some [cmd; username; email] ->
    Regex.test username_regex username = true ->
    Regex.test email_regex email = true ->
    getToken (w_auth w1) = Ok tok ->
    db_user B username (w_db w1) = Throw err ->
    entity_not_found err = true ->
    db_users B (JsString.of_number (user_id user)) (w_db w1) = Ok [] ->
    db_createUser B (JsString.of_number (user_id user)) username email (w_db w1)
    = (Throw err', db') ->
    register ctx schedule w
    = (Some (Ok tt),
       {| w_auth := w_auth w1; w_db := db';
          w_trace := (w_trace w1
                      ++ [GqlSent (GetUserFromId username);
                          GqlSent (GetUsersFromTelegramId
                                     (JsString.of_number (user_id user)));
                          GqlSent (CreateUser (JsString.of_number (user_id user))
                                              username email);
                          Reply generic_error_text false;
                          ReportError err'])%list |}).
Proof.
  intros ctx user ch level d nick schedule w w1 cmd username email tok err err' db'
         Hfrom Hchat Htype Hauth Hargs Huser Hemail Htok Herr Hmark Husers Hcreate.
  rewrite (@command_register_validated ctx user ch level d nick schedule w w1
             cmd username email Hfrom Hchat Htype Hauth Hargs Huser Hemail).
  rewrite (@lookups_and_create_cases user ch username email w1 tok Htok).
  rewrite Herr, Hmark, Husers, Hcreate, register_catch_trace.
  unfold add_trace. cbn [w_auth w_db w_trace]. rewrite <- app_assoc. reflexivity.
Qed.

(** X14: when the creation succeeds, the caller has been told "User ... has
    been registered" and the registration has been reported before the first
    membership query of the group attachment is made; whatever the schedule
    does afterwards (a failing attachment included) comes after these two
    messages. *)
Theorem register_success_precedes_group_attachment :
  forall (ctx : Ctx) (user : TgUser) (ch : TgChat) level d nick schedule w w1
         (cmd username email : string) tok err uuid db',
    from ctx = Some user -> ctx_chat ctx = Some ch -> type ch = Private ->
    auth_status api config ctx w = (Ok (StatusPrivileged level d nick), w1) ->
    option_map (JsString.split " ") (message_text ctx) = Some [cmd; username; email] ->
    Regex.test username_regex username = true ->
    Regex.test email_regex email = true ->
    getToken (w_auth w1) = Ok tok ->
    db_user B username (w_db w1) = Throw err ->
    entity_not_found err = true ->
    db_users B (JsString.of_number (user_id user)) (w_db w1) = Ok [] ->
    db_createUser B (JsString.of_number (user_id user)) username email (w_db w1)
    = (Ok uuid, db') ->
    exists evs,
      w_trace (snd (register ctx schedule w))
      = (w_trace w1
         ++ [GqlSent (GetUserFromId username);
             GqlSent (GetUsersFromTelegramId (JsString.of_number (user_id user)));
             GqlSent (CreateUser (JsString.of_number (user_id user)) username email);
             Reply (registered_text login_url username) true;
             ReportMessage (registered_report escapeHtml username user ch)]
         ++ queries (user_id user) (authorized_chats config)
         ++ evs)%list.
Proof.
  intros ctx user ch level d nick schedule w w1 cmd username email tok err uuid db'
         Hfrom Hchat Htype Hauth Hargs Huser Hemail Htok Herr Hmark Husers Hcreate.
  rewrite (@command_register_validated ctx user ch level d nick schedule w w1
             cmd username email Hfrom Hchat Htype Hauth Hargs Huser Hemail).
  rewrite (@lookups_and_create_cases user ch username email w1 tok Htok).
  rewrite Herr, Hmark, Husers, Hcreate.
  match goal with
  | |- context [run_tasks api config user username schedule ?f0] =>
      destruct (@run_trace B api config user username schedule f0)
        as (_ & evs & Ht)
  end.
  exists evs. cbn [snd]. rewrite Ht.
  cbn [start_tasks fo_world add_trace w_trace].
  rewrite <- !app_assoc. reflexivity.
Qed.

Lemma split_length (sep : ascii) (s : string) :
  List.length (JsString.split sep s) = S (count_char sep s).
Proof.
  unfold count_char. induction s as [|c s IH]; [reflexivity|].
  cbn [JsString.split list_ascii_of_string count_occ].
  destruct (Ascii.eqb c sep) eqn:E.
  - apply Ascii.eqb_eq in E. subst c.
    destruct (ascii_dec sep sep) as [_|ne]; [|now elim ne].
    cbn [List.length]. rewrite IH. reflexivity.
  - apply Ascii.eqb_neq in E.
    destruct (ascii_dec c sep) as [eq|_]; [now elim E|].
    destruct (JsString.split sep s) as [|piece pieces]; [discriminate IH|].
    exact IH.
Qed.

(** X15: for a privileged sender in a private chat whose message has a
    text, [command_register] throws "Invalid number of arguments" exactly
    when the text does not contain exactly two space characters. *)
Theorem register_needs_exactly_two_spaces :
  forall (ctx : Ctx) (user : TgUser) (ch : TgChat) level d nick schedule w w1
         (text : string),
    from ctx = Some user -> ctx_chat ctx = Some ch -> type ch = Private ->
    auth_status api config ctx w = (Ok (StatusPrivileged level d nick), w1) ->
    message_text ctx = Some text ->
    fst (register ctx schedule w)
    = Some (Throw (CommandArgsError "Invalid number of arguments"))
    <-> count_char " " text <> 2%nat.
Proof.
  intros ctx user ch level d nick schedule w w1 text Hfrom Hchat Htype Hauth Htext.
  rewrite (@command_register_privileged B api config login_url escapeHtml
             ctx user ch level d nick schedule w w1 Hfrom Hchat Htype Hauth), Htext.
  cbn [option_map]. pose proof (split_length " " text) as Hlen.
  destruct (JsString.split " " text) as [|a [|b [|c [|x l]]]];
    cbn [List.length] in Hlen; cbn [fst];
    try (split; [intros _; lia | reflexivity]).
  split; [|intros H; elim H; lia].
  destruct (negb (Regex.test username_regex b)); [discriminate|].
  destruct (negb (Regex.test email_regex c)); [discriminate|].
  destruct (lookups_and_create user ch b c w1) as [[[|]|err] w2];
    cbn [fst]; try discriminate.
  destruct (fo_all _); discriminate.
Qed.

End RegisterMore.

Lemma register_requires_sender_and_private_chat_witness :
  from (group_ctx (-1001)) = Some alice
  /\ (forall ch, ctx_chat (group_ctx (-1001)) = Some ch -> type ch <> Private)
  /\ command_register demo_api demo_config "https://auth.example" (fun s => s)
                      (group_ctx (-1001)) [] demo_world
     = (Some (Throw (CommandArgsError "Use this command in a private chat.")),
        demo_world).
Proof.
  assert (H : forall ch, ctx_chat (group_ctx (-1001)) = Some ch -> type ch <> Private).
  { intros ch Hch. inversion Hch. discriminate. }
  split; [reflexivity|]. split; [exact H|].
  exact (proj2 (@register_requires_sender_and_private_chat RefDirectory.backend
                  demo_api demo_config "https://auth.example" (fun s => s)
                  (group_ctx (-1001)) [] demo_world) alice eq_refl H).
Defined.

Lemma register_without_privilege_sends_no_request_witness :
  (forall c st, In c (authorized_chats demo_config) ->
                tg_getChatMember left_api (chat c) (user_id alice) = Ok st ->
                member_type (member_types demo_config) st <= 0)
  /\ exists r evs,
      command_register left_api demo_config "https://auth.example" (fun s => s)
                       (private_ctx "/register alice alice@example.com") []
                       demo_world
      = (Some r, add_trace demo_world evs)
      /\ forall req, ~ In (GqlSent req) evs.
Proof.
  assert (H : forall c st, In c (authorized_chats demo_config) ->
                tg_getChatMember left_api (chat c) (user_id alice) = Ok st ->
                member_type (member_types demo_config) st <= 0).
  { intros c st _ Hst. inversion Hst. simpl. lia. }
  split; [exact H|].
  exact (@register_without_privilege_sends_no_request RefDirectory.backend left_api
           demo_config "https://auth.example" (fun s => s)
           (private_ctx "/register alice alice@example.com") alice [] demo_world
           eq_refl H).
Defined.

Lemma dispatch_turns_argument_errors_into_usage_witness :
  demo_register "/register" []
  = (Some (Throw (CommandArgsError "Invalid number of arguments")), queried_world)
  /\ fst (dispatch_register demo_api demo_config "https://auth.example" (fun s => s)
                            (private_ctx "/register") [] demo_world)
     = Some (Ok tt).
Proof.
  split; [reflexivity|].
  rewrite (proj1 (@dispatch_turns_argument_errors_into_usage RefDirectory.backend
                    demo_api demo_config "https://auth.example" (fun s => s)
                    (private_ctx "/register") [] demo_world)
                 "Invalid number of arguments" queried_world eq_refl).
  reflexivity.
Defined.

Lemma register_reports_lookup_failure_witness :
  auth_status demo_api demo_config
              (private_ctx "/register alice alice@example.com") logged_out_world
  = (Ok (StatusPrivileged 5 (-1002) "B"), queried_logged_out_world)
  /\ token (w_auth queried_logged_out_world) = TokNull
  /\ command_register demo_api demo_config "https://auth.example" (fun s => s)
                      (private_ctx "/register alice alice@example.com") []
                      logged_out_world
     = (Some (Ok tt),
        add_trace queried_logged_out_world
                  [Reply generic_error_text false;
                   ReportError (JsError "Not logged in")]).
Proof.
  split; [reflexivity|]. split; [reflexivity|].
  exact (proj1 (@register_reports_lookup_failure RefDirectory.backend demo_api
                  demo_config "https://auth.example" (fun s => s)
                  (private_ctx "/register alice alice@example.com") alice
                  {| chat_id := 42; type := Private |} 5 (-1002) "B" []
                  logged_out_world queried_logged_out_world
                  "/register" "alice" "alice@example.com"
                  eq_refl eq_refl eq_refl eq_refl eq_refl eq_refl eq_refl)
               eq_refl).
Defined.

Lemma register_reports_creation_failure_witness :
  auth_status demo_api demo_config
              (private_ctx "/register alice alice@example.com") racing_world
  = (Ok (StatusPrivileged 5 (-1002) "B"), queried_racing_world)
  /\ entity_not_found (RefDirectory.not_found "alice") = true
  /\ command_register demo_api demo_config "https://auth.example" (fun s => s)
                      (private_ctx "/register alice alice@example.com") []
                      racing_world
     = (Some (Ok tt),
        add_trace queried_racing_world
          [GqlSent (GetUserFromId "alice");
           GqlSent (GetUsersFromTelegramId "42");
           GqlSent (CreateUser "42" "alice" "alice@example.com");
           Reply generic_error_text false;
           ReportError (JsError "Database error: UNIQUE constraint failed: users.user_id")]).
Proof.
  split; [reflexivity|]. split; [reflexivity|].
  exact (@register_reports_creation_failure racing_backend demo_api
           demo_config "https://auth.example" (fun s => s)
           (private_ctx "/register alice alice@example.com") alice
           {| chat_id := 42; type := Private |} 5 (-1002) "B" []
           racing_world queried_racing_world
           "/register" "alice" "alice@example.com" (TokString "jwt")
           (RefDirectory.not_found "alice")
           (JsError "Database error: UNIQUE constraint failed: users.user_id") tt
           eq_refl eq_refl eq_refl eq_refl eq_refl eq_refl eq_refl
           eq_refl eq_refl eq_refl eq_refl eq_refl).
Defined.

Lemma register_success_precedes_group_attachment_witness :
  auth_status demo_api demo_config
              (private_ctx "/register alice alice@example.com") demo_world
  = (Ok (StatusPrivileged 5 (-1002) "B"), queried_world)
  /\ fst (db_createUser RefDirectory.backend "42" "alice" "alice@example.com"
                        (w_db queried_world))
     = Ok "uuid-0"
  /\ exists evs,
      w_trace (snd (demo_register "/register alice alice@example.com" [0; 1]%nat))
      = (w_trace queried_world
         ++ [GqlSent (GetUserFromId "alice");
             GqlSent (GetUsersFromTelegramId "42");
             GqlSent (CreateUser "42" "alice" "alice@example.com");
             Reply (registered_text "https://auth.example" "alice") true;
             ReportMessage (registered_report (fun s => s) "alice" alice
                                              {| chat_id := 42; type := Private |})]
         ++ queries 42 [chat_A; chat_B]
         ++ evs)%list.
Proof.
  split; [reflexivity|]. split; [reflexivity|].
  exact (@register_success_precedes_group_attachment RefDirectory.backend demo_api
           demo_config "https://auth.example" (fun s => s)
           (private_ctx "/register alice alice@example.com") alice
           {| chat_id := 42; type := Private |} 5 (-1002) "B" [0; 1]%nat
           demo_world queried_world
           "/register" "alice" "alice@example.com" (TokString "jwt")
           (RefDirectory.not_found "No such user: alice") "uuid-0"
           (snd (RefDirectory.createUser "42" "alice" "alice@example.com"
                                         demo_directory))
           eq_refl eq_refl eq_refl eq_refl eq_refl eq_refl eq_refl
           eq_refl eq_refl eq_refl eq_refl eq_refl).
Defined.

Lemma register_needs_exactly_two_spaces_witness :
  auth_status demo_api demo_config
              (private_ctx "/register alice  alice@example.com") demo_world
  = (Ok (StatusPrivileged 5 (-1002) "B"), queried_world)
  /\ count_char " " "/register alice  alice@example.com" <> 2%nat
  /\ fst (demo_register "/register alice  alice@example.com" [])
     = Some (Throw (CommandArgsError "Invalid number of arguments")).
Proof.
  assert (H : count_char " " "/register alice  alice@example.com" <> 2%nat)
    by discriminate.
  split; [reflexivity|]. split; [exact H|].
  exact (proj2 (@register_needs_exactly_two_spaces RefDirectory.backend demo_api
                  demo_config "https://auth.example" (fun s => s)
                  (private_ctx "/register alice  alice@example.com") alice
                  {| chat_id := 42; type := Private |} 5 (-1002) "B" []
                  demo_world queried_world "/register alice  alice@example.com"
                  eq_refl eq_refl eq_refl eq_refl eq_refl) H).
Defined.

(* ------------------------------------------------------------------ *)
(** ** The group attachment, continued *)

Section FanoutMore.

Variable B : DirectoryBackend.
Variable api : TelegramApi.
Variable config : TgConfig.
Variable user : TgUser.
Variable username : string.
Implicit Type w : world B.
Implicit Type f : fanout B.

Local Abbreviation resume1 := (resume api config user username).
Local Abbreviation run := (run_tasks api config user username).
Local Abbreviation weight_of :=
  (fun st : member_status => member_type (member_types config) st).

Lemma map_fst_update_nth {A C} (l : list (A * C)) :
  forall (i : nat) (a : A) (c c' : C),
    nth_error l i = Some (a, c) ->
    map fst (update_nth i (a, c') l) = map fst l.
Proof.
  induction l as [|[a0 c0] l IH]; intros [|i] a c c' H; simpl in *;
    try discriminate.
  - inversion H; subst. reflexivity.
  - f_equal. eapply IH, H.
Qed.

Lemma resume_keeps_chats f i :
  map fst (fo_tasks (resume1 f i)) = map fst (fo_tasks f).
Proof.
  unfold resume. destruct (nth_error (fo_tasks f) i) as [[c t]|] eqn:Hnth;
    [|reflexivity].
  destruct (is_settled t); [reflexivity|].
  destruct (fo_all f);
    destruct (fst (resume_task api config user username c t (fo_world f)));
    cbn [fo_tasks]; eapply map_fst_update_nth, Hnth.
Qed.

Lemma run_keeps_chats schedule :
  forall f, map fst (fo_tasks (run schedule f)) = map fst (fo_tasks f).
Proof.
  induction schedule as [|i rest IH]; intros f; [reflexivity|].
  change (run (i :: rest) f) with (run rest (resume1 f i)).
  rewrite IH. apply resume_keeps_chats.
Qed.

Lemma start_tasks_chats w :
  map fst (fo_tasks (start_tasks config user w)) = authorized_chats config.
Proof.
  cbn [start_tasks fo_tasks]. rewrite map_map. cbn [fst]. apply map_id.
Qed.

Lemma add_to_group_requests gid w :
  exists evs,
    w_trace (snd (add_to_group username gid w)) = (w_trace w ++ evs)%list
    /\ forall req, In (GqlSent req) evs -> req = AddUserToGroup username gid.
Proof.
  unfold add_to_group, bind, request_mutation.
  destruct (getToken (w_auth w)) as [tok|e].
  - exists [GqlSent (AddUserToGroup username gid)]. split.
    + destruct (fst (db_addUserToGroup B username gid (w_db w))) as [[|]|e];
        reflexivity.
    + intros req [H | []]. inversion H. reflexivity.
  - exists []. simpl. rewrite app_nil_r. split; [reflexivity | intros req []].
Qed.

(** The only request a task ever sends is the attachment to the group of
    its own chat, and it sends it only for a positive weight. *)
Lemma resume_task_requests (c : AuthorizedChat) (t : task) w :
  exists evs,
    w_trace (snd (resume_task api config user username c t w))
    = (w_trace w ++ evs)%list
    /\ forall req,
        In (GqlSent req) evs ->
        exists st g,
          tg_getChatMember api (chat c) (user_id user) = Ok st
          /\ 0 < weight_of st
          /\ ldap_group_id c = Some g
          /\ req = AddUserToGroup username g.
Proof.
  assert (Hnil : exists evs,
             w_trace w = (w_trace w ++ evs)%list
             /\ forall req,
                 In (GqlSent req) evs ->
                 exists st g,
                   tg_getChatMember api (chat c) (user_id user) = Ok st
                   /\ 0 < weight_of st
                   /\ ldap_group_id c = Some g
                   /\ req = AddUserToGroup username g).
  { exists []. rewrite app_nil_r. split; [reflexivity | intros req []]. }
  destruct t as [|[u|e]| | |e]; cbn [resume_task]; try exact Hnil.
  - destruct (tg_getChatMember api (chat c) (user_id user)) as [st|e] eqn:Hst;
      [|exact Hnil].
    destruct (member_type (member_types config) st <=? 0) eqn:Hle; [exact Hnil|].
    destruct (ldap_group_id c) as [g|] eqn:Hg; [|exact Hnil]. cbn [snd].
    destruct (add_to_group_requests g w) as (evs & Ht & Hreq).
    exists evs. split; [exact Ht|].
    intros req Hin. exists st, g. apply Z.leb_gt in Hle.
    repeat split; auto.
  - exists [Reply (added_to_group_text username c) true].
    split; [reflexivity|]. intros req [H | []]. discriminate H.
  - destruct (tg_sendMessage api _); exact Hnil.
Qed.

Lemma resume_requests f i :
  exists evs,
    w_trace (fo_world (resume1 f i)) = (w_trace (fo_world f) ++ evs)%list
    /\ forall req,
        In (GqlSent req) evs ->
        exists c st g,
          In c (map fst (fo_tasks f))
          /\ tg_getChatMember api (chat c) (user_id user) = Ok st
          /\ 0 < weight_of st
          /\ ldap_group_id c = Some g
          /\ req = AddUserToGroup username g.
Proof.
  assert (Hnil : exists evs,
             w_trace (fo_world f) = (w_trace (fo_world f) ++ evs)%list
             /\ forall req,
                 In (GqlSent req) evs ->
                 exists c st g,
                   In c (map fst (fo_tasks f))
                   /\ tg_getChatMember api (chat c) (user_id user) = Ok st
                   /\ 0 < weight_of st
                   /\ ldap_group_id c = Some g
                   /\ req = AddUserToGroup username g).
  { exists []. rewrite app_nil_r. split; [reflexivity | intros req []]. }
  unfold resume. destruct (nth_error (fo_tasks f) i) as [[c t]|] eqn:Hnth;
    [|exact Hnil].
  destruct (is_settled t); [exact Hnil|].
  destruct (resume_task_requests c t (fo_world f)) as (evs & Ht & Hreq).
  assert (Hc : In c (map fst (fo_tasks f))).
  { apply in_map_iff. exists (c, t). split; [reflexivity|].
    eapply nth_error_In, Hnth. }
  assert (Hreq' : forall req,
             In (GqlSent req) evs ->
             exists c st g,
               In c (map fst (fo_tasks f))
               /\ tg_getChatMember api (chat c) (user_id user) = Ok st
               /\ 0 < weight_of st
               /\ ldap_group_id c = Some g
               /\ req = AddUserToGroup username g).
  { intros req Hin. destruct (Hreq req Hin) as (st & g & H1 & H2 & H3 & H4).
    exists c, st, g. auto. }
  destruct (fo_all f);
    destruct (fst (resume_task api config user username c t (fo_world f)));
    cbn [fo_world]; try (exists evs; split; [exact Ht | exact Hreq']).
  exists (evs ++ [Reply generic_error_text false; ReportError reason])%list.
  split.
  - unfold register_catch, bind, reply, report_error, emit. cbn [snd fst].
    rewrite add_trace_app. cbn [w_trace add_trace]. rewrite Ht, <- app_assoc.
    reflexivity.
  - intros req Hin. apply in_app_or in Hin.
    destruct Hin as [Hin | [Hin | [Hin | []]]]; [auto | discriminate | discriminate].
Qed.

Lemma run_requests schedule :
  forall f,
    exists evs,
      w_trace (fo_world (run schedule f)) = (w_trace (fo_world f) ++ evs)%list
      /\ forall req,
          In (GqlSent req) evs ->
          exists c st g,
            In c (map fst (fo_tasks f))
            /\ tg_getChatMember api (chat c) (user_id user) = Ok st
            /\ 0 < weight_of st
            /\ ldap_group_id c = Some g
            /\ req = AddUserToGroup username g.
Proof.
  induction schedule as [|i rest IH]; intros f.
  - exists []. rewrite app_nil_r. split; [reflexivity | intros req []].
  - change (run (i :: rest) f) with (run rest (resume1 f i)).
    destruct (resume_requests f i) as (evs & Ht & Hreq).
    destruct (IH (resume1 f i)) as (evs' & Ht' & Hreq').
    exists (evs ++ evs')%list. rewrite Ht', Ht, app_assoc.
    split; [reflexivity|].
    intros req Hin. apply in_app_or in Hin. destruct Hin as [Hin | Hin]; auto.
    destruct (Hreq' req Hin) as (c & st & g & Hc & H).
    rewrite resume_keeps_chats in Hc. exists c, st, g. auto.
Qed.

(** X16: whatever the schedule, the only GraphQL requests of the group
    attachment are [AddUserToGroup] mutations for the registered username
    and the group of a configured chat in which the sender's weight is
    positive: no chat without a group, no chat where the weight is 0 or
    less, no other user and no other kind of request. *)
Theorem group_attachment_only_adds_to_eligible_groups :
  forall (schedule : list nat) w,
    exists evs,
      w_trace (fo_world (run schedule (start_tasks config user w)))
      = (w_trace w ++ queries (user_id user) (authorized_chats config) ++ evs)%list
      /\ forall req,
          In (GqlSent req) evs ->
          exists c st g,
            In c (authorized_chats config)
            /\ tg_getChatMember api (chat c) (user_id user) = Ok st
            /\ 0 < member_type (member_types config) st
            /\ ldap_group_id c = Some g
            /\ req = AddUserToGroup username g.
Proof.
  intros schedule w.
  destruct (run_requests schedule (start_tasks config user w)) as (evs & Ht & Hreq).
  exists evs. split.
  - rewrite Ht. cbn [start_tasks fo_world add_trace w_trace].
    rewrite app_assoc. reflexivity.
  - intros req Hin. destruct (Hreq req Hin) as (c & st & g & Hc & H).
    rewrite start_tasks_chats in Hc. exists c, st, g. auto.
Qed.

Lemma settled_iff_rank (t : task) : is_settled t = true <-> task_rank t = 3%nat.
Proof. destruct t; simpl; split; congruence. Qed.

Lemma task_rank_bound (t : task) : (task_rank t <= 3)%nat.
Proof. destruct t; simpl; lia. Qed.

(** Every resumption takes a task that has not ended past one more await. *)
Lemma resume_task_advances (c : AuthorizedChat) (t : task) w :
  is_settled t = false ->
  (task_rank t < task_rank (fst (resume_task api config user username c t w)))%nat.
Proof.
  destruct t as [|[u|e]| | |e]; cbn [is_settled resume_task]; intros H;
    try discriminate H; cbn [fst task_rank]; try lia.
  - destruct (tg_getChatMember api (chat c) (user_id user)) as [st|e];
      [|cbn; lia].
    destruct (member_type (member_types config) st <=? 0); [cbn; lia|].
    destruct (ldap_group_id c); cbn; lia.
  - destruct (tg_sendMessage api _); cbn; lia.
Qed.

Lemma resume_rank_same f i :
  (Nat.min 3 (S (task_rank_at f i)) <= task_rank_at (resume1 f i) i)%nat.
Proof.
  unfold task_rank_at at 1. unfold task_rank_at, resume.
  destruct (nth_error (fo_tasks f) i) as [[c t]|] eqn:Hnth.
  - destruct (is_settled t) eqn:Hs.
    + rewrite Hnth. apply settled_iff_rank in Hs. lia.
    + pose proof (resume_task_advances c t (fo_world f) Hs) as Hadv.
      pose proof (task_rank_bound
                    (fst (resume_task api config user username c t (fo_world f)))).
      destruct (fo_all f);
        destruct (fst (resume_task api config user username c t (fo_world f)));
        cbn [fo_tasks]; rewrite (nth_error_update_nth_same _ _ _ Hnth);
        cbn [task_rank] in *; lia.
  - rewrite Hnth. lia.
Qed.

Lemma resume_rank_other f i j :
  i <> j -> task_rank_at (resume1 f i) j = task_rank_at f j.
Proof.
  intros Hne. unfold task_rank_at.
  rewrite (@resume_other B api config user username f i j Hne). reflexivity.
Qed.

Lemma run_rank schedule :
  forall f j,
    (Nat.min 3 (task_rank_at f j + count_occ Nat.eq_dec schedule j)
     <= task_rank_at (run schedule f) j)%nat.
Proof.
  induction schedule as [|i rest IH]; intros f j.
  - change (run [] f) with f. cbn [count_occ]. lia.
  - change (run (i :: rest) f) with (run rest (resume1 f i)).
    specialize (IH (resume1 f i) j). cbn [count_occ].
    destruct (Nat.eq_dec i j) as [-> | Hne].
    + pose proof (resume_rank_same f j). lia.
    + rewrite (resume_rank_other f Hne) in IH. exact IH.
Qed.

(** While the [Promise.all] is pending some task has not been fulfilled. *)
Lemma resume_pending f i :
  (fo_all f = AllPending -> forallb (@is_fulfilled) (fo_tasks f) = false) ->
  fo_all (resume1 f i) = AllPending ->
  forallb (@is_fulfilled) (fo_tasks (resume1 f i)) = false.
Proof.
  intros Hinv. unfold resume.
  destruct (nth_error (fo_tasks f) i) as [[c t]|]; [|exact Hinv].
  destruct (is_settled t); [exact Hinv|].
  destruct (fo_all f);
    destruct (fst (resume_task api config user username c t (fo_world f)));
    cbn [fo_all fo_tasks]; try discriminate;
    match goal with
    | |- context [forallb ?p ?l] => destruct (forallb p l)
    end; congruence.
Qed.

Lemma run_pending schedule :
  forall f,
    (fo_all f = AllPending -> forallb (@is_fulfilled) (fo_tasks f) = false) ->
    fo_all (run schedule f) = AllPending ->
    forallb (@is_fulfilled) (fo_tasks (run schedule f)) = false.
Proof.
  induction schedule as [|i rest IH]; intros f Hinv; [exact Hinv|].
  change (run (i :: rest) f) with (run rest (resume1 f i)).
  apply IH. apply resume_pending. exact Hinv.
Qed.

(** X17: the group attachment comes to an end.  A task is past its last
    await after at most three resumptions, so once the schedule has resumed
    every task three times, every task has ended (fulfilled or rejected)
    and the [Promise.all] is settled: [command_register] is no longer
    suspended in its [await]. *)
Theorem group_attachment_settles :
  forall (schedule : list nat) w,
    (forall i, (i < List.length (authorized_chats config))%nat ->
               (3 <= count_occ Nat.eq_dec schedule i)%nat) ->
    (forall i c t,
        nth_error (fo_tasks (run schedule (start_tasks config user w))) i
        = Some (c, t) ->
        is_settled t = true)
    /\ fo_all (run schedule (start_tasks config user w)) <> AllPending.
Proof.
  intros schedule w Hfair.
  set (f := run schedule (start_tasks config user w)).
  assert (Hsettled : forall i c t,
             nth_error (fo_tasks f) i = Some (c, t) -> is_settled t = true).
  { intros i c t Hnth. apply settled_iff_rank.
    assert (Hi : (i < List.length (authorized_chats config))%nat).
    { rewrite <- (start_tasks_chats w), <- (run_keeps_chats schedule), length_map.
      apply nth_error_Some. fold f. congruence. }
    pose proof (run_rank schedule (start_tasks config user w) i) as Hrank.
    fold f in Hrank. unfold task_rank_at at 2 in Hrank. rewrite Hnth in Hrank.
    specialize (Hfair i Hi). pose proof (task_rank_bound t). lia. }
  split; [exact Hsettled|].
  intros Hpending.
  destruct (@run_consistent B api config user username schedule
              (start_tasks config user w) []
              (@start_tasks_consistent B config user w)) as (evs & _ & Hcons).
  fold f in Hcons. unfold promise_all_consistent in Hcons.
  rewrite Hpending in Hcons.
  assert (Hall : forallb (@is_fulfilled) (fo_tasks f) = true).
  { apply forallb_forall. intros [c t] Hin.
    apply In_nth_error in Hin as [i Hnth].
    pose proof (Hsettled i c t Hnth) as Hs.
    unfold is_fulfilled. cbn [snd].
    destruct t; try discriminate Hs; [reflexivity|].
    elim (Hcons i c reason Hnth). }
  assert (Hnot : forallb (@is_fulfilled) (fo_tasks f) = false).
  { apply run_pending; [|exact Hpending].
    cbn [start_tasks fo_all fo_tasks].
    destruct (authorized_chats config); [discriminate | reflexivity]. }
  congruence.
Qed.

(** X18: with a single configured chat the fan-out and the one-by-one
    processing of the specification cannot be told apart: once the only
    task has been resumed three times, the record of calls, the directory
    and the session are what processing the chat in sequence with an abort
    on failure would have left. *)
Theorem single_chat_attachment_is_sequential :
  forall (c : AuthorizedChat) w,
    authorized_chats config = [c] ->
    fo_world (run [0; 0; 0]%nat (start_tasks config user w))
    = snd (attach_sequentially_spec api config user username w).
Proof.
  intros c w Hchats.
  unfold attach_sequentially_spec, run_tasks, start_tasks, try_catch.
  rewrite Hchats. cbn [fold_left map queries attach_sequentially].
  unfold resume at 3. cbn [fo_tasks nth_error is_settled resume_task fo_world fo_all].
  unfold bind at 1, getChatMember at 1.
  destruct (tg_getChatMember api (chat c) (user_id user)) as [st|e].
  - destruct (member_type (member_types config) st <=? 0).
    + cbn [fst snd update_nth forallb is_fulfilled andb]. reflexivity.
    + destruct (ldap_group_id c) as [g|].
      * cbn [fst snd update_nth forallb is_fulfilled andb].
        unfold bind at 1.
        destruct (add_to_group username g
                    (add_trace w [GetChatMember (chat c) (user_id user)]))
          as [[u|e] w'] eqn:Hadd; cbn [fst snd].
        -- unfold resume at 2.
           cbn [fo_tasks nth_error is_settled resume_task fo_world fo_all
                fst snd update_nth forallb is_fulfilled andb].
           unfold resume.
           cbn [fo_tasks nth_error is_settled resume_task fo_world fo_all].
           unfold reply_awaited, bind, reply, emit, ret. cbn [fst snd].
           destruct (tg_sendMessage api (added_to_group_text username c));
             reflexivity.
        -- unfold resume at 2.
           cbn [fo_tasks nth_error is_settled resume_task fo_world fo_all
                fst snd update_nth]. reflexivity.
      * cbn [fst snd update_nth forallb is_fulfilled andb]. reflexivity.
  - cbn [fst snd update_nth]. reflexivity.
Qed.

End FanoutMore.

Lemma group_attachment_settles_witness :
  (forall i, (i < List.length (authorized_chats demo_config))%nat ->
             (3 <= count_occ Nat.eq_dec [0; 1; 0; 1; 0; 1]%nat i)%nat)
  /\ fo_all (run_tasks demo_api demo_config alice "alice" [0; 1; 0; 1; 0; 1]%nat
                       (start_tasks demo_config alice alice_world))
     <> AllPending.
Proof.
  assert (H : forall i, (i < List.length (authorized_chats demo_config))%nat ->
                (3 <= count_occ Nat.eq_dec [0; 1; 0; 1; 0; 1]%nat i)%nat).
  { intros [|[|i]] Hi; simpl in *; lia. }
  split; [exact H|].
  exact (proj2 (@group_attachment_settles RefDirectory.backend demo_api demo_config
                  alice "alice" [0; 1; 0; 1; 0; 1]%nat alice_world H)).
Defined.

Lemma single_chat_attachment_is_sequential_witness :
  authorized_chats single_config = [chat_B]
  /\ fo_world (run_tasks demo_api single_config alice "alice" [0; 0; 0]%nat
                         (start_tasks single_config alice alice_world))
     = snd (attach_sequentially_spec demo_api single_config alice "alice"
                                     alice_world).
Proof.
  split; [reflexivity|].
  exact (@single_chat_attachment_is_sequential RefDirectory.backend demo_api
           single_config alice "alice" chat_B alice_world eq_refl).
Defined.

(* ------------------------------------------------------------------ *)
(** ** The email check *)

Lemma count_occ_none (P : ascii -> Prop) (c : ascii) (l : list ascii) :
  Forall P l -> ~ P c -> count_occ ascii_dec l c = 0%nat.
Proof.
  intros Hall Hc. apply count_occ_not_In. intros Hin.
  rewrite Forall_forall in Hall. exact (Hc (Hall c Hin)).
Qed.

Lemma at_sign_is_no_letter : ~ is_letter "@".
Proof.
  unfold is_letter, ascii_between. simpl. lia.
Qed.

Lemma at_sign_is_no_digit : ~ is_digit "@".
Proof.
  unfold is_digit, ascii_between. simpl. lia.
Qed.

(** X19: the email test of [command_register] accepts exactly the strings
    [local@domain.tld] (a non-empty local part of letters, digits and
    [._%+-], a non-empty domain of letters, digits and [.-], a dot, at least
    two letters), and every accepted string contains exactly one [@]. *)
Theorem email_check_accepts_exactly_addresses :
  forall s : string,
    (Regex.test email_regex s = true <-> email_pattern s)
    /\ (Regex.test email_regex s = true -> count_char "@" s = 1%nat).
Proof.
  intros s. split; [apply email_test_spec|].
  intros Htest. apply email_test_spec in Htest.
  destruct Htest as (local & domain & tld & Hs & _ & Hlocal & _ & Hdomain & _ & Htld).
  unfold count_char. rewrite Hs.
  rewrite count_occ_app. cbn [count_occ].
  destruct (ascii_dec "@" "@") as [_|ne]; [|now elim ne].
  rewrite count_occ_app. cbn [count_occ].
  destruct (ascii_dec "." "@") as [eq|_]; [discriminate eq|].
  rewrite (@count_occ_none _ "@"%char _ Hlocal),
    (@count_occ_none _ "@"%char _ Hdomain),
    (@count_occ_none _ "@"%char _ Htld); [reflexivity | | |].
  - exact at_sign_is_no_letter.
  - intros [H | [H | H]];
      [exact (at_sign_is_no_letter H) | exact (at_sign_is_no_digit H) |].
    simpl in H. intuition discriminate.
  - intros [H | [H | H]];
      [exact (at_sign_is_no_letter H) | exact (at_sign_is_no_digit H) |].
    simpl in H. intuition discriminate.
Qed.

Lemma email_check_accepts_exactly_addresses_witness :
  Regex.test email_regex "alice@example.com" = true
  /\ count_char "@" "alice@example.com" = 1%nat.
Proof.
  split; [reflexivity|].
  exact (proj2 (email_check_accepts_exactly_addresses "alice@example.com") eq_refl).
Defined.

(* ------------------------------------------------------------------ *)
(** ** The client against the reference directory, continued *)

Lemma hd_error_app_last {A} (l : list A) (x : A) :
  hd_error (l ++ [x]) = Some (hd x l).
Proof. destruct l; reflexivity. Qed.

(** X20: against the reference directory, when [create_user] returns, a
    [get_user_by_telegram_id] for the same external identity made next
    finds a user: the new one when no user was linked to that identity
    before, otherwise the oldest user already linked to it (the first match
    wins). *)
Theorem create_user_then_get_user_by_telegram_id :
  forall (externalId id email uuid : string) (w w' : world RefDirectory.backend),
    create_user externalId id email w = (Ok uuid, w') ->
    fst (get_user_by_telegram_id externalId w')
    = Ok (Some (hd id (map RefDirectory.su_id
                           (filter (RefDirectory.has_attribute "telegram_id" externalId)
                                   (RefDirectory.users (w_db w)))))).
Proof.
  intros externalId id email uuid w w' Hcreate.
  unfold create_user, request_mutation in Hcreate.
  destruct (getToken (w_auth w)) as [tok|e] eqn:Htok; [|discriminate Hcreate].
  cbn [db_createUser RefDirectory.backend] in Hcreate.
  unfold RefDirectory.createUser in Hcreate.
  destruct (existsb (RefDirectory.has_id id) (RefDirectory.users (w_db w)));
    [discriminate Hcreate|].
  cbn [fst snd] in Hcreate. inversion Hcreate as [[Huuid Hw']]. clear Hcreate.
  unfold get_user_by_telegram_id, bind.
  rewrite (@request_query_logged_in RefDirectory.backend _ _ _ _ tok)
    by exact Htok.
  cbn [db_users RefDirectory.backend w_db]. unfold RefDirectory.users_by_telegram_id.
  cbn [RefDirectory.users]. rewrite filter_app, map_app.
  cbn [filter RefDirectory.has_attribute RefDirectory.su_attributes existsb
       attr_name attr_value].
  rewrite !String.eqb_refl. cbn [andb orb map RefDirectory.su_id].
  pose proof (hd_error_app_last
                (map RefDirectory.su_id
                     (filter (RefDirectory.has_attribute "telegram_id" externalId)
                             (RefDirectory.users (w_db w)))) id) as Hhd.
  destruct (map RefDirectory.su_id _ ++ [id])%list as [|first others] eqn:E;
    [discriminate Hhd|].
  cbn [hd_error] in Hhd. inversion Hhd. reflexivity.
Qed.

Lemma create_user_then_get_user_by_telegram_id_witness :
  create_user "42" "bob" "bob@example.com" demo_world = (Ok "uuid-0", bob_world)
  /\ fst (get_user_by_telegram_id "42" bob_world) = Ok (Some "bob").
Proof.
  split; [reflexivity|].
  exact (@create_user_then_get_user_by_telegram_id "42" "bob" "bob@example.com"
           "uuid-0" demo_world bob_world eq_refl).
Defined.

(* ------------------------------------------------------------------ *)
(** ** The test query *)


